(** * Klarity: the uncertainty estimator

    A shallow embedding of [src/klarity/estimator.py] and
    [src/klarity/models.py], and the properties of the estimator that the
    specification states.

    Conventions of the embedding.
    - Python [float]s are idealised as real numbers ([R]): [math.exp] and
      [np.exp] are [exp], [np.log] is [ln].  Rounding, overflow, infinities
      and NaN are outside the model.
    - Python [int]s are [Z]; [str] is [string]; [Optional[T]] is [option T].
    - Duck typing: an object is a record of the attributes the estimator
      probes, an attribute the object lacks being [None].
    - An exception is a value of type [exn]; a method that may raise
      returns in the monad [M], which threads the estimator object (whose
      analyzer can be mutated) and the log of the calls made to
      collaborators: the tokenizer and the analyzer.
    - [core/analyzer.py] is not among the sources: the analyzer's methods
      are the fields of the class [AnalyzerClass], and every property holds
      for every instance.  [torch.softmax] and [torch.topk] are modelled
      after their documentation.
    - [_generate_with_together], which only calls the remote API, is not
      modelled; its return value is the record [TogetherOutput]. *)

From Stdlib Require Import String Ascii Bool ZArith Reals Lra Lia.
From Stdlib Require Import List Permutation Sorted.
Import ListNotations.

Set Implicit Arguments.
Set Maximal Implicit Insertion.

(** ** Python exceptions and truthiness *)

Inductive exn : Type :=
| ValueError (msg : string)
| AttributeError (msg : string)
| TypeError (msg : string)
| IndexError (msg : string)
| RuntimeError (msg : string)
| TimeoutError (msg : string).

(** [bool(s)] for a [str]. *)
Definition str_truthy (s : string) : bool :=
  match s with
  | EmptyString => false
  | String _ _ => true
  end.

(** [bool(o)] for an [Optional[str]]. *)
Definition opt_str_truthy (o : option string) : bool :=
  match o with
  | Some s => str_truthy s
  | None => false
  end.

(** [bool(o)] for an optional object that defines neither [__bool__] nor
    [__len__]. *)
Definition is_some {A : Type} (o : option A) : bool :=
  match o with
  | Some _ => true
  | None => false
  end.

(** [bool(l)] for a [list]. *)
Definition list_truthy {A : Type} (l : list A) : bool :=
  match l with
  | [] => false
  | _ :: _ => true
  end.

(** [l[i]] for a non-negative index. *)
Definition index {A : Type} (l : list A) (i : nat) : exn + A :=
  match nth_error l i with
  | Some x => inr x
  | None => inl (IndexError "index out of range")
  end.

(** [l[:k]]: a negative bound counts from the end. *)
Definition slice_to {A : Type} (l : list A) (k : Z) : list A :=
  if (k <? 0)%Z
  then firstn (length l - Z.to_nat (- k)) l
  else firstn (Z.to_nat k) l.

(** [l[n:]] for a non-negative bound. *)
Definition slice_from {A : Type} (l : list A) (n : nat) : list A := skipn n l.

(** A character that [str.strip] removes (code points below 256). *)
Definition isspace (c : ascii) : bool :=
  let n := nat_of_ascii c in
  ((9 <=? n) && (n <=? 13)) || ((28 <=? n) && (n <=? 32))
  || (n =? 133) || (n =? 160).

(** [bool(s.strip())]: some character of [s] is not white space. *)
Fixpoint strip_truthy (s : string) : bool :=
  match s with
  | EmptyString => false
  | String c s' => negb (isspace c) || strip_truthy s'
  end.

(** ** Numbers: comparison, sums, stable descending sort *)

Definition Rltb (x y : R) : bool := if Rlt_dec x y then true else false.

Definition Rsum (l : list R) : R := fold_right Rplus 0%R l.

(** [l.sort(key=key, reverse=True)]: the sort is stable, also in reverse, so
    an element moves behind the elements whose key is strictly greater and
    stays ahead of every later element with an equal key. *)
Fixpoint insert_desc {A : Type} (key : A -> R) (x : A) (l : list A) : list A :=
  match l with
  | [] => [x]
  | y :: l' =>
      if Rltb (key x) (key y) then y :: insert_desc key x l' else x :: l
  end.

Definition sort_desc {A : Type} (key : A -> R) (l : list A) : list A :=
  fold_right (insert_desc key) [] l.

(** The order the sort establishes, and the test for one key value. *)
Definition key_ge {A : Type} (key : A -> R) (x y : A) : Prop :=
  (key y <= key x)%R.

Definition has_key {A : Type} (key : A -> R) (v : R) (x : A) : bool :=
  if Req_dec_T (key x) v then true else false.

(** ** torch *)

(** A 2-D tensor: one row of scores over the vocabulary per batch entry. *)
Definition Tensor : Type := list (list R).

(** Softmax of one row.  Over the reals the numerically stable form
    [exp (x - max) / sum] that the library computes is this quotient. *)
Definition softmax_row (row : list R) : list R :=
  let e := map exp row in map (fun x => (x / Rsum e)%R) e.

(** [torch.softmax(t, dim=-1)] *)
Definition softmax (t : Tensor) : Tensor := map softmax_row t.

(** [torch.topk(input, k)] on a 1-D tensor: the [k] largest values in
    descending order with their indices; [k] outside [0 .. len] raises.
    Among equal values the lower index is listed first. *)
Definition topk (input : list R) (k : Z) : exn + (list R * list nat) :=
  if ((k <? 0) || (Z.of_nat (length input) <? k))%Z
  then inl (RuntimeError "selected index k out of range")
  else
    let top :=
      firstn (Z.to_nat k)
        (sort_desc snd (combine (seq 0 (length input)) input)) in
    inr (map snd top, map fst top).

(** [row[indices]] for indices produced by [topk] on a row of that length. *)
Definition gather (row : list R) (indices : list nat) : list R :=
  map (fun i => nth i row 0%R) indices.

(** ** A state and exception monad *)

Section Monad.
Variable W : Type.

Definition M (A : Type) : Type := W -> (exn + A) * W.

Definition ret {A} (a : A) : M A := fun w => (inr a, w).

Definition raise {A} (e : exn) : M A := fun w => (inl e, w).

Definition bind {A B} (m : M A) (k : A -> M B) : M B :=
  fun w =>
    match m w with
    | (inr a, w') => k a w'
    | (inl e, w') => (inl e, w')
    end.

Definition get : M W := fun w => (inr w, w).

Definition modify (f : W -> W) : M unit := fun w => (inr tt, f w).

(** A pure computation that may raise. *)
Definition lift {A} (r : exn + A) : M A := fun w => (r, w).

(** [for x in l: acc = body x acc] *)
Fixpoint for_each {A X} (body : A -> X -> M X) (l : list A) (acc : X) : M X :=
  match l with
  | [] => ret acc
  | x :: l' => bind (body x acc) (for_each body l')
  end.

(** [m] leaves the component [f] of the state as it found it, whether it
    returns or raises. *)
Definition keeps {A X} (f : W -> X) (m : M A) : Prop :=
  forall w, f (snd (m w)) = f w.

End Monad.

Arguments ret {W A} a.
Arguments raise {W A} e.
Arguments bind {W A B} m k.
Arguments get {W}.
Arguments modify {W} f.
Arguments lift {W A} r.
Arguments for_each {W A X} body l acc.
Arguments keeps {W A X} f m.

Declare Scope monad_scope.
Delimit Scope monad_scope with monad.
Notation "x <- m ;; k" := (bind m (fun x => k))
  (at level 61, m at next level, right associativity) : monad_scope.
Notation "' p <- m ;; k" := (bind m (fun x => match x with p => k end))
  (at level 61, p pattern, m at next level, right associativity) : monad_scope.
Notation "m ;;; k" := (bind m (fun _ => k))
  (at level 61, right associativity) : monad_scope.

(** ** models.py *)

Record TokenInfo : Type := {
  token : string;
  token_id : Z;
  logit : R;
  probability : R
}.

Record UncertaintyMetrics : Type := {
  raw_entropy : R;
  semantic_entropy : R;
  token_predictions : list TokenInfo;
  insight : option string
}.

(** [UncertaintyMetrics(raw_entropy=.., semantic_entropy=..,
    token_predictions=..)]: [insight] takes its default. *)
Definition UncertaintyMetrics_init (raw sem : R) (preds : list TokenInfo)
  : UncertaintyMetrics :=
  {| raw_entropy := raw; semantic_entropy := sem;
     token_predictions := preds; insight := None |}.

(** [UncertaintyAnalysisResult] declares two data fields; [model_config] is
    the model's configuration. *)
Record UncertaintyAnalysisResult : Type := {
  token_metrics : list UncertaintyMetrics;
  overall_insight : option string
}.

(** The names of the declared fields, as [models.py] lists them. *)
Definition UncertaintyAnalysisResult_fields : list string :=
  ["token_metrics"; "overall_insight"]%string.

(** [hasattr(result, name)] for an [UncertaintyAnalysisResult]. *)
Definition result_hasattr (name : string) : bool :=
  existsb (String.eqb name) UncertaintyAnalysisResult_fields.

(** [UncertaintyAnalysisResult(token_metrics=.., overall_insight=..,
    attention_data=..)].  The model keeps pydantic's default
    [extra='ignore']: a keyword that names no declared field is dropped by
    [BaseModel.__init__], so the [attention_data] keyword reaches no field. *)
Definition UncertaintyAnalysisResult_init {AttentionData : Type}
    (token_metrics : list UncertaintyMetrics) (overall_insight : option string)
    (attention_data : option AttentionData) : UncertaintyAnalysisResult :=
  {| token_metrics := token_metrics; overall_insight := overall_insight |}.

(** ** estimator.py: the objects the estimator receives *)

(** The [together] client; only its construction is in scope. *)
Record Together : Type := { api_key : string }.

(** One entry of a vLLM log-probability mapping. *)
Record Logprob : Type := {
  logprob : R;
  decoded_token : string
}.

(** One candidate output of a vLLM request.  A step's mapping from token id
    to [Logprob] is a [dict]: its [items()] come in insertion order. *)
Record CompletionOutput : Type := {
  text : string;
  logprobs : option (list (list (Z * Logprob)))
}.

(** The mapping [_generate_with_together] returns, by key. *)
Record TogetherOutput : Type := {
  dict_text : string;
  dict_tokens : list string;
  dict_token_logprobs : list R;
  dict_token_ids : list Z
}.

(** A tokenizer: [decode(ids, skip_special_tokens)]. *)
Record Tokenizer : Type := {
  decode : list Z -> bool -> string
}.

(** The [processor] argument: the captured score tensors of
    [UncertaintyLogitsProcessor], and the shape of [input_ids] when the
    object has that attribute. *)
Record Processor : Type := {
  captured_logits : list Tensor;
  input_ids_shape : option (nat * nat)
}.

Section Estimator.

(** The analyzer object, the vision configuration of a model, the attention
    tensors of a generation and the attention payload computed from them
    come from [core/analyzer.py] and from the model library; the estimator
    passes them on. *)
Variables AnalyzerObj VisionConfig Attentions AttentionData : Type.

(** The methods and attributes of [EntropyAnalyzer] and [VLMAnalyzer] the
    estimator uses.  [patch_size] is [None] when the attribute is missing
    or holds [None].  Only [generate_overall_insight], which calls the
    insight backend, is given the possibility to raise. *)
Class AnalyzerClass : Type := {
  isinstance_VLMAnalyzer : AnalyzerObj -> bool;
  patch_size : AnalyzerObj -> option Z;
  set_vision_config : AnalyzerObj -> VisionConfig -> AnalyzerObj;
  process_attention_maps :
    AnalyzerObj -> Attentions -> list string -> AttentionData;
  _calculate_raw_entropy : AnalyzerObj -> list R -> R;
  _calculate_semantic_entropy : AnalyzerObj -> list TokenInfo -> R;
  generate_overall_insight :
    AnalyzerObj -> list UncertaintyMetrics -> string -> string ->
    option AttentionData -> exn + option string
}.

Context {AC : AnalyzerClass}.

(** [model.config.vision_config] *)
Record Model : Type := { vision_config : VisionConfig }.

(** A generation output, by the attributes and keys the estimator probes:
    an attribute that the object lacks is [None] (an attribute that is
    present counts for [hasattr] whatever it holds); [items] is [None]
    when the object cannot be subscripted. *)
Record GenerationOutput : Type := {
  attentions : option Attentions;
  sequences : option (list (list Z));
  scores : option (list Tensor);
  outputs : option (list CompletionOutput);
  items : option TogetherOutput
}.

Record UncertaintyEstimator : Type := {
  analyzer : option AnalyzerObj;
  top_k : Z;
  together_client : option Together;
  together_model : option string
}.

(** [UncertaintyEstimator.__init__] *)
Definition UncertaintyEstimator_init
    (top_k : Z) (analyzer : option AnalyzerObj)
    (together_api_key together_model : option string)
  : UncertaintyEstimator :=
  {| analyzer := analyzer;
     top_k := if opt_str_truthy together_model then 5%Z else top_k;
     together_client :=
       if opt_str_truthy together_api_key
       then option_map (fun k => {| api_key := k |}) together_api_key
       else None;
     together_model := together_model |}.

(** *** Calls to collaborators *)

Inductive Call : Type :=
| decode_call (ids : list Z) (skip_special_tokens : bool)
| set_vision_config_call (cfg : VisionConfig)
| process_attention_maps_call (att : Attentions) (tokens : list string)
| calculate_raw_entropy_call (probs : list R)
| calculate_semantic_entropy_call (token_info : list TokenInfo)
| generate_overall_insight_call
    (all_metrics : list UncertaintyMetrics)
    (input_query generated_text : string)
    (attention_data : option AttentionData).

(** The state a call of a method of the estimator works on: the estimator
    object and the calls made so far, oldest first. *)
Record World : Type := {
  self : UncertaintyEstimator;
  calls : list Call
}.

Definition log (c : Call) (w : World) : World :=
  {| self := self w; calls := calls w ++ [c] |}.

Definition set_analyzer (a : AnalyzerObj) (w : World) : World :=
  {| self :=
       {| analyzer := Some a;
          top_k := top_k (self w);
          together_client := together_client (self w);
          together_model := together_model (self w) |};
     calls := calls w |}.

Local Open Scope monad_scope.

(** [self.analyzer.<attr>]: the attribute lookup fails on [None]. *)
Definition self_analyzer (attr : string) : M World AnalyzerObj :=
  w <- get ;;
  match analyzer (self w) with
  | Some a => ret a
  | None =>
      raise (AttributeError
               ("'NoneType' object has no attribute '" ++ attr ++ "'"))
  end.

(** [tokenizer.decode(ids, skip_special_tokens=skip)] *)
Definition tokenizer_decode (tokenizer : option Tokenizer)
    (ids : list Z) (skip : bool) : M World string :=
  match tokenizer with
  | None =>
      raise (AttributeError "'NoneType' object has no attribute 'decode'")
  | Some t => modify (log (decode_call ids skip)) ;;; ret (decode t ids skip)
  end.

(** [self.analyzer._calculate_raw_entropy(probs)] *)
Definition calculate_raw_entropy (probs : list R) : M World R :=
  a <- self_analyzer "_calculate_raw_entropy" ;;
  modify (log (calculate_raw_entropy_call probs)) ;;;
  ret (_calculate_raw_entropy a probs).

(** [self.analyzer._calculate_semantic_entropy(token_info)] *)
Definition calculate_semantic_entropy (token_info : list TokenInfo)
  : M World R :=
  a <- self_analyzer "_calculate_semantic_entropy" ;;
  modify (log (calculate_semantic_entropy_call token_info)) ;;;
  ret (_calculate_semantic_entropy a token_info).

(** [self.analyzer.generate_overall_insight(all_metrics, input_query=..,
    generated_text=.. [, attention_data=..])] *)
Definition overall_insight_call (all_metrics : list UncertaintyMetrics)
    (input_query generated_text : string)
    (attention_data : option AttentionData) : M World (option string) :=
  a <- self_analyzer "generate_overall_insight" ;;
  modify (log (generate_overall_insight_call
                 all_metrics input_query generated_text attention_data)) ;;;
  lift (generate_overall_insight a all_metrics input_query generated_text
          attention_data).

(** *** [_process_logits] and [_process_together_logprob] *)

Definition _process_logits (logits : Tensor) (tokenizer : option Tokenizer)
  : M World (list TokenInfo) :=
  let probs := softmax logits in
  probs0 <- lift (index probs 0) ;;
  w <- get ;;
  '(top_probs, top_indices) <- lift (topk probs0 (top_k (self w))) ;;
  logits0 <- lift (index logits 0) ;;
  let top_logits := gather logits0 top_indices in
  for_each
    (fun '(token_id, logit, prob) token_info =>
       token <- tokenizer_decode tokenizer [Z.of_nat token_id] false ;;
       ret (token_info ++
            [{| token := token; token_id := Z.of_nat token_id;
                logit := logit; probability := prob |}]))
    (combine (combine top_indices top_logits) top_probs) [].

Definition _process_together_logprob (logprob : R) : R := exp logprob.

(** *** [analyze_generation] *)

(** [obj.<attr>] for an attribute the object may lack. *)
Definition getattr {A : Type} (attr : string) (o : option A) : M World A :=
  match o with
  | Some x => ret x
  | None => raise (AttributeError ("object has no attribute '" ++ attr ++ "'"))
  end.

(** The local variables a backend branch leaves behind:
    [all_metrics], [generated_text], [attention_data]. *)
Definition Locals : Type :=
  (list UncertaintyMetrics * string * option AttentionData)%type.

(** The body of the loop over score tensors, which the vision-language
    branch and the HuggingFace branch share word for word. *)
Definition logits_step (tokenizer : option Tokenizer) (logits : Tensor)
    (all_metrics : list UncertaintyMetrics)
  : M World (list UncertaintyMetrics) :=
  token_info <- _process_logits logits tokenizer ;;
  raw <- calculate_raw_entropy (map probability token_info) ;;
  sem <- calculate_semantic_entropy token_info ;;
  ret (all_metrics ++ [UncertaintyMetrics_init raw sem token_info]).

(** [processor.input_ids.shape[1] if hasattr(processor, "input_ids") else 0] *)
Definition input_length_of (processor : option Processor) : nat :=
  match processor with
  | Some p =>
      match input_ids_shape p with
      | Some (_, n) => n
      | None => 0
      end
  | None => 0
  end.

(** The branch [if is_vlm:]. *)
Definition vlm_outputs (generation_output : GenerationOutput)
    (model : option Model) (tokenizer : option Tokenizer)
    (processor : option Processor) : M World Locals :=
  a <- self_analyzer "patch_size" ;;
  match patch_size a with
  | None =>
      m <- getattr "config" model ;;
      modify (log (set_vision_config_call (vision_config m))) ;;;
      modify (set_analyzer (set_vision_config a (vision_config m)))
  | Some _ => ret tt
  end ;;;
  let input_length := input_length_of processor in
  seqs <- getattr "sequences" (sequences generation_output) ;;
  seq0 <- lift (index seqs 0) ;;
  let generated_tokens := slice_from seq0 input_length in
  generated_text <- tokenizer_decode tokenizer generated_tokens true ;;
  tokens <-
    for_each
      (fun i tokens =>
         token_text <-
           tokenizer_decode tokenizer
             (firstn 1 (slice_from generated_tokens i)) true ;;
         ret (if strip_truthy token_text then tokens ++ [token_text]
              else tokens))
      (seq 0 (length generated_tokens)) [] ;;
  a' <- self_analyzer "process_attention_maps" ;;
  att <- getattr "attentions" (attentions generation_output) ;;
  modify (log (process_attention_maps_call att tokens)) ;;;
  let attention_data := process_attention_maps a' att tokens in
  all_metrics <-
    match scores generation_output with
    | Some sc => for_each (logits_step tokenizer) sc []
    | None => ret []
    end ;;
  ret (all_metrics, generated_text, Some attention_data).

(** The candidates of one vLLM step: the entries of the mapping, sorted by
    log-probability, cut at [top_k]. *)
Definition vllm_token_info (top_k : Z) (token_data : list (Z * Logprob))
  : list TokenInfo :=
  let logprobs_items :=
    map (fun '(token, lp) => (token, logprob lp, decoded_token lp))
      token_data in
  let logprobs_items := sort_desc (fun x => snd (fst x)) logprobs_items in
  map (fun '(token_id, logprob, decoded_token) =>
         {| token := decoded_token; token_id := token_id;
            logit := logprob; probability := exp logprob |})
    (slice_to logprobs_items top_k).

(** The body of [for token_data in logprobs_data:]. *)
Definition vllm_step (token_data : list (Z * Logprob))
    (all_metrics : list UncertaintyMetrics)
  : M World (list UncertaintyMetrics) :=
  w <- get ;;
  let token_info := vllm_token_info (top_k (self w)) token_data in
  match token_info with
  | [] => ret all_metrics
  | _ :: _ =>
      let probs := map probability token_info in
      raw <-
        (if is_some (analyzer (self w))
         then calculate_raw_entropy probs
         else ret (- Rsum (map (fun p => p * ln p) probs))%R) ;;
      sem <-
        (if is_some (analyzer (self w))
         then calculate_semantic_entropy token_info
         else ret 0%R) ;;
      ret (all_metrics ++ [UncertaintyMetrics_init raw sem token_info])
  end.

(** The branch [if hasattr(generation_output, "outputs"):]. *)
Definition vllm_outputs (generation_output : GenerationOutput)
  : M World Locals :=
  outs <- getattr "outputs" (outputs generation_output) ;;
  out0 <- lift (index outs 0) ;;
  let generated_text := text out0 in
  all_metrics <-
    match logprobs out0 with
    | Some logprobs_data =>
        if list_truthy logprobs_data
        then for_each vllm_step logprobs_data []
        else ret []
    | None => ret []
    end ;;
  ret (all_metrics, generated_text, None).

(** The body of [for step in range(len(tokens)):]. *)
Definition together_step (d : TogetherOutput) (step : nat)
    (all_metrics : list UncertaintyMetrics)
  : M World (list UncertaintyMetrics) :=
  lp <- lift (index (dict_token_logprobs d) step) ;;
  let prob := _process_together_logprob lp in
  let uncertainty_score := (1 - prob)%R in
  tok <- lift (index (dict_tokens d) step) ;;
  tid <- lift (index (dict_token_ids d) step) ;;
  ret (all_metrics ++
       [UncertaintyMetrics_init uncertainty_score 0%R
          [{| token := tok; token_id := tid; logit := lp;
              probability := prob |}]]).

(** The branch [elif self.together_model:]. *)
Definition together_outputs (generation_output : GenerationOutput)
  : M World Locals :=
  d <-
    match items generation_output with
    | Some d => ret d
    | None => raise (TypeError "object is not subscriptable")
    end ;;
  all_metrics <-
    for_each (together_step d) (seq 0 (length (dict_tokens d))) [] ;;
  ret (all_metrics, dict_text d, None).

(** The final [else:] branch. *)
Definition huggingface_outputs (generation_output : GenerationOutput)
    (tokenizer : option Tokenizer) (processor : option Processor)
  : M World Locals :=
  if negb (is_some tokenizer) || negb (is_some processor)
  then
    raise (ValueError "Tokenizer and processor required for HuggingFace models")
  else
    seqs <- getattr "sequences" (sequences generation_output) ;;
    seq0 <- lift (index seqs 0) ;;
    generated_text <- tokenizer_decode tokenizer seq0 true ;;
    p <- getattr "captured_logits" processor ;;
    all_metrics <- for_each (logits_step tokenizer) (captured_logits p) [] ;;
    ret (all_metrics, generated_text, None).

(** [hasattr(generation_output, "attentions") and
    isinstance(self.analyzer, VLMAnalyzer)] *)
Definition is_vlm_output (generation_output : GenerationOutput)
    (est : UncertaintyEstimator) : bool :=
  is_some (attentions generation_output)
  && match analyzer est with
     | Some a => isinstance_VLMAnalyzer a
     | None => false
     end.

(** The chain of branches that fills [all_metrics]. *)
Definition backend_outputs (is_vlm : bool)
    (generation_output : GenerationOutput) (model : option Model)
    (tokenizer : option Tokenizer) (processor : option Processor)
  : M World Locals :=
  if is_vlm then vlm_outputs generation_output model tokenizer processor
  else if is_some (outputs generation_output)
  then vllm_outputs generation_output
  else
    w <- get ;;
    if opt_str_truthy (together_model (self w))
    then together_outputs generation_output
    else huggingface_outputs generation_output tokenizer processor.

(** [prompt or ""] *)
Definition or_empty (prompt : option string) : string :=
  match prompt with
  | Some p => if str_truthy p then p else ""%string
  | None => ""%string
  end.

(** The part of [analyze_generation] after the branches: the call for the
    overall insight and the construction of the result. *)
Definition finish (is_vlm : bool) (input_query : string) (locals : Locals)
  : M World UncertaintyAnalysisResult :=
  let '(all_metrics, generated_text, attention_data) := locals in
  overall_insight <-
    (if is_vlm
     then overall_insight_call all_metrics input_query generated_text
            attention_data
     else overall_insight_call all_metrics input_query generated_text None) ;;
  ret (UncertaintyAnalysisResult_init all_metrics overall_insight
         (if is_vlm then attention_data else None)).

Definition analyze_generation (generation_output : GenerationOutput)
    (model : option Model) (tokenizer : option Tokenizer)
    (processor : option Processor) (prompt : option string)
  : M World UncertaintyAnalysisResult :=
  let input_query := or_empty prompt in
  w <- get ;;
  let is_vlm := is_vlm_output generation_output (self w) in
  locals <-
    backend_outputs is_vlm generation_output model tokenizer processor ;;
  finish is_vlm input_query locals.

End Estimator.

Arguments AnalyzerClass : clear implicits.
Arguments World : clear implicits.
Arguments UncertaintyEstimator : clear implicits.
Arguments GenerationOutput : clear implicits.
Arguments Model : clear implicits.
Arguments Call : clear implicits.
Arguments Locals : clear implicits.

(** ** estimator.py: [UncertaintyLogitsProcessor] *)

(** Tensors are objects: a reference names a cell of the store, and two
    references to one cell alias.  [next] is the first unused reference. *)
Definition Ref : Type := nat.

Record Heap : Type := {
  cells : Ref -> Tensor;
  next : Ref
}.

Definition deref (h : Heap) (r : Ref) : Tensor := cells h r.

(** A new tensor object holding [t]. *)
Definition alloc (h : Heap) (t : Tensor) : Ref * Heap :=
  (next h,
   {| cells := fun r => if Nat.eqb r (next h) then t else cells h r;
      next := S (next h) |}).

(** An in-place update of the tensor [r] refers to. *)
Definition store (h : Heap) (r : Ref) (t : Tensor) : Heap :=
  {| cells := fun r' => if Nat.eqb r' r then t else cells h r';
     next := next h |}.

(** The processor object; its back reference to the estimator is never
    read. *)
Record UncertaintyLogitsProcessor : Type := {
  captured : list Ref
}.

(** What a call of the processor works on: the store and the processor. *)
Record ProcWorld : Type := {
  heap : Heap;
  this : UncertaintyLogitsProcessor
}.

(** [UncertaintyLogitsProcessor.__init__] *)
Definition UncertaintyLogitsProcessor_init : UncertaintyLogitsProcessor :=
  {| captured := [] |}.

(** [UncertaintyEstimator.get_logits_processor] *)
Definition get_logits_processor : UncertaintyLogitsProcessor :=
  UncertaintyLogitsProcessor_init.

(** [scores.detach().clone()]: a new tensor with a copy of the data. *)
Definition detach_clone (scores : Ref) : M ProcWorld Ref :=
  fun w =>
    let (r, h) := alloc (heap w) (deref (heap w) scores) in
    (inr r, {| heap := h; this := this w |}).

(** [self.captured_logits.append(r)] *)
Definition captured_logits_append (r : Ref) : M ProcWorld unit :=
  modify (fun w =>
            {| heap := heap w;
               this := {| captured := captured (this w) ++ [r] |} |}).

(** [UncertaintyLogitsProcessor.__call__] *)
Definition __call__ (input_ids : list (list Z)) (scores : Ref)
  : M ProcWorld Ref :=
  (r <- detach_clone scores ;;
   captured_logits_append r ;;;
   ret scores)%monad.

(** The [processor] argument of [analyze_generation] read off the store:
    the tensors the captured references hold. *)
Definition processor_of (w : ProcWorld) : Processor :=
  {| captured_logits := map (deref (heap w)) (captured (this w));
     input_ids_shape := None |}.

(** ** The log of calls *)

Section CallLog.
Variables AnalyzerObj VisionConfig Attentions AttentionData : Type.

(** The kinds of call a property singles out. *)
Definition is_decode_call (c : Call VisionConfig Attentions AttentionData)
  : bool :=
  match c with
  | @decode_call _ _ _ _ _ => true
  | _ => false
  end.

Definition is_set_vision_config_call
    (c : Call VisionConfig Attentions AttentionData) : bool :=
  match c with
  | @set_vision_config_call _ _ _ _ => true
  | _ => false
  end.

Definition is_insight_call (c : Call VisionConfig Attentions AttentionData)
  : bool :=
  match c with
  | @generate_overall_insight_call _ _ _ _ _ _ _ => true
  | _ => false
  end.

(** [m] only adds calls to the log, and every call it adds satisfies [P],
    whether [m] returns or raises. *)
Definition appends {A : Type}
    (P : Call VisionConfig Attentions AttentionData -> Prop)
    (m : M (World AnalyzerObj VisionConfig Attentions AttentionData) A)
  : Prop :=
  forall w, exists l, calls (snd (m w)) = calls w ++ l /\ Forall P l.

End CallLog.

Arguments is_decode_call {VisionConfig Attentions AttentionData} c.
Arguments is_set_vision_config_call {VisionConfig Attentions AttentionData} c.
Arguments is_insight_call {VisionConfig Attentions AttentionData} c.
Arguments appends {AnalyzerObj VisionConfig Attentions AttentionData A} P m.

(** ** Step records of score tensors *)

Section StepRecords.
Context {AnalyzerObj VisionConfig Attentions AttentionData : Type}.
Context {AC : AnalyzerClass AnalyzerObj VisionConfig Attentions AttentionData}.

(** A score tensor has a first row, and [k] candidates can be selected
    from it. *)
Definition within_vocabulary (k : Z) (logits : Tensor) : Prop :=
  exists row rest,
    logits = row :: rest /\ (0 <= k <= Z.of_nat (length row))%Z.

(** [m] is the step record that the estimator [est], with analyzer [a] and
    tokenizer [t], builds for the score tensor [logits]: the candidates of
    [_process_logits] and the two entropies the analyzer computes for
    them. *)
Definition is_record_of (est : UncertaintyEstimator AnalyzerObj)
    (a : AnalyzerObj) (t : Tokenizer) (logits : Tensor)
    (m : UncertaintyMetrics) : Prop :=
  fst (_process_logits logits (Some t)
         ({| self := est; calls := [] |}
          : World AnalyzerObj VisionConfig Attentions AttentionData))
  = inr (token_predictions m)
  /\ raw_entropy m
     = _calculate_raw_entropy a (map probability (token_predictions m))
  /\ semantic_entropy m
     = _calculate_semantic_entropy a (token_predictions m)
  /\ insight m = None.

End StepRecords.

(** ** estimator.py: [_generate_with_together] *)

(** The request [chat.completions.create] receives and the part of its
    response the estimator reads. *)
Record Message : Type := {
  role : string;
  content : string
}.

Record ChatRequest : Type := {
  request_model : option string;
  messages : list Message;
  max_tokens : Z;
  temperature : R;
  request_logprobs : bool;
  stream : bool
}.

Record LogprobsData : Type := {
  tokens : list string;
  token_logprobs : list R;
  token_ids : list Z
}.

Record Choice : Type := {
  message_content : string;
  choice_logprobs : option LogprobsData
}.

Record ChatResponse : Type := {
  choices : list Choice
}.

(** The keyword arguments [_generate_with_together] looks up. *)
Record Kwargs : Type := {
  max_new_tokens : option Z;
  kwargs_temperature : option R
}.

(** [kwargs.get(key, default)] *)
Definition get_default {A : Type} (o : option A) (default : A) : A :=
  match o with
  | Some x => x
  | None => default
  end.

Section Generate.
Context {AnalyzerObj VisionConfig Attentions AttentionData : Type}.

(** The remote API: what [client.chat.completions.create] answers. *)
Variable create : Together -> ChatRequest -> exn + ChatResponse.

(** [_generate_with_together(prompt, **kwargs)]; the [print] of the
    log-probability data is left out. *)
Definition _generate_with_together (prompt : string) (kwargs : Kwargs)
  : M (World AnalyzerObj VisionConfig Attentions AttentionData)
      TogetherOutput :=
  (let messages := [{| role := "user"; content := prompt |}] in
   let generation_max_tokens := get_default (max_new_tokens kwargs) 10%Z in
   let generation_temperature :=
     get_default (kwargs_temperature kwargs) (7 / 10)%R in
   w <- get ;;
   client <-
     match together_client (self w) with
     | Some c => ret c
     | None =>
         raise (AttributeError "'NoneType' object has no attribute 'chat'")
     end ;;
   response <-
     lift (create client
             {| request_model := together_model (self w);
                messages := messages;
                max_tokens := generation_max_tokens;
                temperature := generation_temperature;
                request_logprobs := true;
                stream := false |}) ;;
   choice0 <- lift (index (choices response) 0) ;;
   let logprobs_data := choice_logprobs choice0 in
   match logprobs_data with
   | Some data =>
       ret {| dict_text := message_content choice0;
              dict_tokens := tokens data;
              dict_token_logprobs := token_logprobs data;
              dict_token_ids := token_ids data |}
   | None =>
       raise (AttributeError "'NoneType' object has no attribute 'tokens'")
   end)%monad.

(** The mapping as the [generation_output] argument: a [dict] has none of
    the attributes the estimator probes. *)
Definition dict_output (d : TogetherOutput) : GenerationOutput Attentions :=
  {| attentions := None; sequences := None; scores := None;
     outputs := None; items := Some d |}.

End Generate.

(** ** benchmarks/reasoning_budget_control.py *)

(** [s[n:]] for a non-negative bound. *)
Fixpoint str_drop (n : nat) (s : string) : string :=
  match n, s with
  | 0, _ => s
  | S _, EmptyString => EmptyString
  | S n', String _ s' => str_drop n' s'
  end.

(** [s[a:b]] for non-negative bounds. *)
Definition str_slice (s : string) (a b : nat) : string :=
  substring a (b - a) s.

(** [s.find(sub)]: the lowest index at which [sub] occurs; [None] stands
    for the result [-1]. *)
Fixpoint str_find (sub s : string) : option nat :=
  if prefix sub s then Some 0
  else
    match s with
    | EmptyString => None
    | String _ s' => option_map S (str_find sub s')
    end.

(** [s.rfind(sub)]: the highest index at which [sub] occurs; [s.rindex]
    raises [ValueError] where this is [None]. *)
Fixpoint str_rfind (sub s : string) : option nat :=
  match s with
  | EmptyString => if prefix sub EmptyString then Some 0 else None
  | String _ s' =>
      match str_rfind sub s' with
      | Some i => Some (S i)
      | None => if prefix sub s then Some 0 else None
      end
  end.

(** [VLLMClient.extract_answer]; the [ValueError] of [rindex] is caught and
    gives the empty string (the error is logged), and [text.find("}",
    last_occurrence)] searches the text from [last_occurrence] on. *)
Definition extract_answer (text : string) : string :=
  match str_rfind "boxed{" text with
  | None => EmptyString
  | Some last_occurrence =>
      match str_find "}" (str_drop last_occurrence text) with
      | Some offset =>
          let end_pos := last_occurrence + offset in
          str_slice text (last_occurrence + String.length "boxed{") end_pos
      | None => EmptyString
      end
  end.

Definition is_ValueError (e : exn) : bool :=
  match e with
  | ValueError _ => true
  | _ => false
  end.

Section Accuracy.

(** Python's [float]: the values, the conversion [float(s)] of a string,
    which may raise, and the comparison [==]. *)
Variable float : Type.
Variable float_of_string : string -> exn + float.
Variable float_eqb : float -> float -> bool.

(** The loop of [compute_math_accuracy] over the zipped lists: a
    [ValueError] of either conversion is passed over. *)
Fixpoint accuracy_loop (pairs : list (string * string)) (correct : nat)
  : exn + nat :=
  match pairs with
  | [] => inr correct
  | (pred, gt) :: pairs' =>
      match float_of_string pred with
      | inl e => if is_ValueError e then accuracy_loop pairs' correct else inl e
      | inr x =>
          match float_of_string gt with
          | inl e =>
              if is_ValueError e then accuracy_loop pairs' correct else inl e
          | inr y =>
              accuracy_loop pairs' (if float_eqb x y then S correct else correct)
          end
      end
  end.

(** [VLLMClient.compute_math_accuracy] *)
Definition compute_math_accuracy (predictions ground_truths : list string)
  : exn + R :=
  if negb (length predictions =? length ground_truths)
  then
    inl (ValueError "Predictions and ground truths must have the same length")
  else if length predictions =? 0 then inr 0%R
  else
    match accuracy_loop (combine predictions ground_truths) 0 with
    | inr correct => inr (INR correct / INR (length predictions))%R
    | inl e => inl e
    end.


End Accuracy.

(** ** A sample analyzer and sample inputs *)

(** An analyzer object for the examples: whether it is a [VLMAnalyzer],
    its patch size, and what its insight backend answers. *)
Record SampleAnalyzer : Type := {
  sample_is_vlm : bool;
  sample_patch_size : option Z;
  sample_reply : exn + option string
}.

(** Modelled from the spec: [_calculate_raw_entropy] of [core/analyzer.py],
    which is not among the sources; the Shannon entropy of the candidate
    probabilities, a zero probability contributing zero. *)
Definition shannon_entropy (probs : list R) : R :=
  (- Rsum (map (fun p => p * ln p) probs))%R.

(** Modelled from the spec: [_calculate_semantic_entropy] of
    [core/analyzer.py], which is not among the sources, with the clustering
    that leaves every token in a cluster of its own. *)
Definition singleton_cluster_entropy (token_info : list TokenInfo) : R :=
  shannon_entropy (map probability token_info).

(** Modelled from the spec: [process_attention_maps] of [core/analyzer.py],
    which is not among the sources; each generated token is paired with
    its weighting over the image patches. *)
Definition pair_attention (att : list (list R)) (tokens : list string)
  : list (string * list R) :=
  combine tokens att.

#[export] Instance sample_class
  : AnalyzerClass SampleAnalyzer Z (list (list R)) (list (string * list R)) :=
  {| isinstance_VLMAnalyzer := sample_is_vlm;
     patch_size := sample_patch_size;
     set_vision_config := fun a cfg =>
       {| sample_is_vlm := sample_is_vlm a;
          sample_patch_size := Some cfg;
          sample_reply := sample_reply a |};
     process_attention_maps := fun _ => pair_attention;
     _calculate_raw_entropy := fun _ => shannon_entropy;
     _calculate_semantic_entropy := fun _ => singleton_cluster_entropy;
     generate_overall_insight := fun a _ _ _ _ => sample_reply a |}.

Definition SampleWorld : Type :=
  World SampleAnalyzer Z (list (list R)) (list (string * list R)).

Definition SampleOutput : Type := GenerationOutput (list (list R)).

(** A text analyzer whose insight backend answers, one whose backend times
    out, and a vision-language analyzer. *)
Definition text_analyzer : SampleAnalyzer :=
  {| sample_is_vlm := false; sample_patch_size := None;
     sample_reply := inr (Some "steady"%string) |}.

Definition failing_analyzer : SampleAnalyzer :=
  {| sample_is_vlm := false; sample_patch_size := None;
     sample_reply := inl (TimeoutError "timeout") |}.

Definition vlm_analyzer : SampleAnalyzer :=
  {| sample_is_vlm := true; sample_patch_size := Some 14%Z;
     sample_reply := inr (Some "looks at the wing"%string) |}.

(** The world of a fresh estimator. *)
Definition fresh (est : UncertaintyEstimator SampleAnalyzer) : SampleWorld :=
  {| self := est; calls := [] |}.

Definition no_output : SampleOutput :=
  {| attentions := None; sequences := None; scores := None;
     outputs := None; items := None |}.

(** A remote response of two tokens. *)
Definition remote_response : TogetherOutput :=
  {| dict_text := "Hi there";
     dict_tokens := ["Hi"; " there"]%string;
     dict_token_logprobs := [(-1/10)%R; (-23/10)%R];
     dict_token_ids := [13347%Z; 1070%Z] |}.

Definition remote_output : SampleOutput :=
  {| attentions := None; sequences := None; scores := None;
     outputs := None; items := Some remote_response |}.

Definition remote_estimator (a : SampleAnalyzer)
  : UncertaintyEstimator SampleAnalyzer :=
  UncertaintyEstimator_init 100 (Some a) (Some "key"%string)
    (Some "meta-llama/Llama-3-8b-chat-hf"%string).

(** A local estimator with [top_k = k]. *)
Definition local_estimator (k : Z) (a : SampleAnalyzer)
  : UncertaintyEstimator SampleAnalyzer :=
  UncertaintyEstimator_init k (Some a) None None.

(** A vLLM step of three entries, two of them tied, and a vLLM output whose
    first step has no entry. *)
Definition tied_step : list (Z * Logprob) :=
  [(11%Z, {| logprob := (-2)%R; decoded_token := "a" |});
   (12%Z, {| logprob := (-1)%R; decoded_token := "b" |});
   (13%Z, {| logprob := (-2)%R; decoded_token := "c" |})].

Definition one_entry_step : list (Z * Logprob) :=
  [(7%Z, {| logprob := (-1)%R; decoded_token := "yes" |})].

Definition vllm_output_of (steps : list (list (Z * Logprob))) : SampleOutput :=
  {| attentions := None; sequences := None; scores := None;
     outputs := Some [{| text := "yes"; logprobs := Some steps |}];
     items := None |}.

(** A vision-language output: attentions for one generated token, no
    scores. *)
Definition vlm_output : SampleOutput :=
  {| attentions := Some [[(1/4)%R; (3/4)%R]];
     sequences := Some [[1%Z; 2%Z; 3%Z]];
     scores := Some [];
     outputs := None; items := None |}.

Definition sample_tokenizer : Tokenizer :=
  {| decode := fun ids _ => match ids with
                            | [] => ""%string
                            | _ :: _ => "wing"%string
                            end |}.

Definition sample_processor : Processor :=
  {| captured_logits := []; input_ids_shape := Some (1, 2) |}.

(** A score tensor over a vocabulary of two tokens. *)
Definition two_logits : Tensor := [[0%R; 1%R]].

(** A store with one tensor, and a processor that captured nothing yet. *)
Definition sample_store : ProcWorld :=
  {| heap := {| cells := fun _ => two_logits; next := 1 |};
     this := UncertaintyLogitsProcessor_init |}.

(** An estimator constructed with the defaults: no analyzer. *)
Definition bare_estimator : UncertaintyEstimator SampleAnalyzer :=
  UncertaintyEstimator_init 100 None None None.

(** A vision-language analyzer that has no patch size yet, and a model to
    take it from. *)
Definition uninitialised_vlm_analyzer : SampleAnalyzer :=
  {| sample_is_vlm := true; sample_patch_size := None;
     sample_reply := inr None |}.

Definition sample_model : Model Z := {| vision_config := 14%Z |}.

(** A remote response with two tokens and one log-probability. *)
Definition short_response : TogetherOutput :=
  {| dict_text := "Hi there";
     dict_tokens := ["Hi"; " there"]%string;
     dict_token_logprobs := [(-1/10)%R];
     dict_token_ids := [13347%Z; 1070%Z] |}.

Definition short_output : SampleOutput :=
  {| attentions := None; sequences := None; scores := None;
     outputs := None; items := Some short_response |}.

(** A plain output of a local model, and a processor that captured the
    scores of one step. *)
Definition dense_output : SampleOutput :=
  {| attentions := None; sequences := Some [[1%Z; 2%Z; 3%Z]];
     scores := None; outputs := None; items := None |}.

Definition one_step_processor : Processor :=
  {| captured_logits := [two_logits]; input_ids_shape := None |}.

(** A remote API that answers every request with the same two tokens. *)
Definition sample_api (_ : Together) (_ : ChatRequest) : exn + ChatResponse :=
  inr {| choices :=
           [{| message_content := "Hi there";
               choice_logprobs :=
                 Some {| tokens := ["Hi"; " there"]%string;
                         token_logprobs := [(-1/10)%R; (-23/10)%R];
                         token_ids := [13347%Z; 1070%Z] |} |}] |}.

(** A stand-in for [float] on strings: the unsigned decimal numerals, as
    integers; every other string is refused with [ValueError]. *)
Fixpoint decimal_value (s : string) (acc : Z) : option Z :=
  match s with
  | EmptyString => Some acc
  | String c s' =>
      let n := nat_of_ascii c in
      if (48 <=? n) && (n <=? 57)
      then decimal_value s' (10 * acc + Z.of_nat (n - 48))%Z
      else None
  end.

Definition sample_float_of_string (s : string) : exn + Z :=
  match s with
  | EmptyString => inl (ValueError "could not convert string to float")
  | String _ _ =>
      match decimal_value s 0%Z with
      | Some z => inr z
      | None => inl (ValueError "could not convert string to float")
      end
  end.

(** * Properties *)

Unset Implicit Arguments.

(** ** The monad *)

Section MonadFacts.
Context {W : Type}.

Lemma bind_ok {A B} (m : M W A) (k : A -> M W B) w a w' :
  m w = (inr a, w') -> bind m k w = k a w'.
Proof. intros H. unfold bind. now rewrite H. Qed.

Lemma bind_raise {A B} (m : M W A) (k : A -> M W B) w e w' :
  m w = (inl e, w') -> bind m k w = (inl e, w').
Proof. intros H. unfold bind. now rewrite H. Qed.

Lemma bind_ext {A B} (m : M W A) (k k' : A -> M W B) w :
  (forall a w', k a w' = k' a w') -> bind m k w = bind m k' w.
Proof.
  intros H. unfold bind. destruct (m w) as [[e | a] w']; [reflexivity | apply H].
Qed.

Lemma bind_cong_l {A B} (m m' : M W A) (k : A -> M W B) w :
  m w = m' w -> bind m k w = bind m' k w.
Proof. intros H. unfold bind. now rewrite H. Qed.

Lemma bind_assoc {A B C} (m : M W A) (k : A -> M W B) (k' : B -> M W C) w :
  bind (bind m k) k' w = bind m (fun a => bind (k a) k') w.
Proof.
  unfold bind. destruct (m w) as [[e | a] w']; reflexivity.
Qed.

Lemma for_each_app {A X} (body : A -> X -> M W X) l1 l2 acc w :
  for_each body (l1 ++ l2) acc w
  = bind (for_each body l1 acc) (for_each body l2) w.
Proof.
  revert acc w. induction l1 as [| x l1 IH]; intros acc w; simpl.
  - reflexivity.
  - rewrite bind_assoc. apply bind_ext. intros a w'. apply IH.
Qed.

(** A loop whose body never raises and appends one element per round is a
    [map] over the list, with the state threaded through. *)
Lemma for_each_pure {A X} (f : A -> X) (l : list A) (acc : list X) (w : W) :
  for_each (fun x acc => ret (acc ++ [f x])) l acc w
  = (inr (acc ++ map f l), w).
Proof.
  revert acc. induction l as [| x l IH]; intros acc; simpl.
  - now rewrite app_nil_r.
  - unfold bind, ret at 1. rewrite IH. now rewrite <- app_assoc.
Qed.

End MonadFacts.

(** ** The stable descending sort *)

Section SortFacts.
Context {A : Type} (key : A -> R).

Lemma Rltb_true x y : Rltb x y = true <-> (x < y)%R.
Proof.
  unfold Rltb. destruct (Rlt_dec x y); split; intros; try assumption;
    try reflexivity; try discriminate; contradiction.
Qed.

Lemma Rltb_false x y : Rltb x y = false <-> (y <= x)%R.
Proof.
  unfold Rltb. destruct (Rlt_dec x y); split; intros; try discriminate;
    try reflexivity; lra.
Qed.

Lemma insert_desc_perm x l : Permutation (x :: l) (insert_desc key x l).
Proof.
  induction l as [| y l IH]; simpl.
  - apply Permutation_refl.
  - destruct (Rltb (key x) (key y)).
    + eapply Permutation_trans; [apply perm_swap |].
      now apply perm_skip.
    + apply Permutation_refl.
Qed.

Lemma sort_desc_perm l : Permutation l (sort_desc key l).
Proof.
  induction l as [| x l IH]; simpl.
  - constructor.
  - eapply Permutation_trans; [| apply insert_desc_perm].
    now apply perm_skip.
Qed.

Lemma sort_desc_length l : length (sort_desc key l) = length l.
Proof. symmetry. apply Permutation_length, sort_desc_perm. Qed.

Lemma insert_desc_sorted x l :
  StronglySorted (key_ge key) l ->
  StronglySorted (key_ge key) (insert_desc key x l).
Proof.
  induction l as [| y l IH]; intros Hs; simpl.
  - repeat constructor.
  - inversion Hs as [| y' l' Hl Hy]; subst.
    destruct (Rltb (key x) (key y)) eqn:E.
    + apply Rltb_true in E. constructor; [now apply IH |].
      eapply Permutation_Forall; [apply insert_desc_perm |].
      constructor; [unfold key_ge; lra | assumption].
    + apply Rltb_false in E. constructor; [assumption |].
      constructor; [exact E |].
      eapply Forall_impl; [| exact Hy].
      unfold key_ge. intros z Hz. lra.
Qed.

Lemma sort_desc_sorted l : StronglySorted (key_ge key) (sort_desc key l).
Proof.
  induction l as [| x l IH]; simpl.
  - constructor.
  - now apply insert_desc_sorted.
Qed.

(** Inserting leaves the elements of any one key in their order: the new
    element only moves behind strictly greater keys. *)
Lemma insert_desc_filter v x l :
  filter (has_key key v) (insert_desc key x l)
  = filter (has_key key v) (x :: l).
Proof.
  induction l as [| y l IH]; [reflexivity |].
  simpl insert_desc. destruct (Rltb (key x) (key y)) eqn:E; [| reflexivity].
  apply Rltb_true in E.
  change (filter (has_key key v) (y :: insert_desc key x l))
    with (if has_key key v y
          then y :: filter (has_key key v) (insert_desc key x l)
          else filter (has_key key v) (insert_desc key x l)).
  rewrite IH. simpl. unfold has_key.
  destruct (Req_dec_T (key y) v), (Req_dec_T (key x) v);
    try reflexivity; lra.
Qed.

Lemma sort_desc_stable v l :
  filter (has_key key v) (sort_desc key l) = filter (has_key key v) l.
Proof.
  induction l as [| x l IH]; [reflexivity |].
  simpl sort_desc. rewrite insert_desc_filter. simpl. now rewrite IH.
Qed.

End SortFacts.

Lemma sort_desc_map {A B : Type} (f : A -> B) (key : B -> R) (l : list A) :
  sort_desc key (map f l) = map f (sort_desc (fun x => key (f x)) l).
Proof.
  induction l as [| x l IH]; [reflexivity |].
  simpl. rewrite IH. clear IH.
  induction (sort_desc (fun x => key (f x)) l) as [| y s IHs]; [reflexivity |].
  simpl. destruct (Rltb (key (f x)) (key (f y))); simpl; [now rewrite IHs | reflexivity].
Qed.

Lemma sort_desc_ext {A : Type} (key key' : A -> R) (l : list A) :
  (forall x, key x = key' x) -> sort_desc key l = sort_desc key' l.
Proof.
  intros H. induction l as [| x l IH]; [reflexivity |].
  simpl. rewrite IH. clear IH.
  induction (sort_desc key' l) as [| y s IHs]; [reflexivity |].
  simpl. rewrite !H. now rewrite IHs.
Qed.

Lemma In_firstn {A : Type} (x : A) n (l : list A) :
  In x (firstn n l) -> In x l.
Proof.
  revert n. induction l as [| y l IH]; intros n H.
  - now rewrite firstn_nil in H.
  - destruct n as [| n]; [contradiction |].
    destruct H as [-> | H]; [now left | right; eauto].
Qed.

Lemma StronglySorted_firstn {A : Type} (R : A -> A -> Prop) n (l : list A) :
  StronglySorted R l -> StronglySorted R (firstn n l).
Proof.
  intros Hs. revert n. induction Hs as [| x l Hs IH Hx]; intros n.
  - rewrite firstn_nil. constructor.
  - destruct n as [| n]; simpl; constructor; [apply IH |].
    apply Forall_forall. intros y Hy.
    apply (proj1 (Forall_forall _ _) Hx). eapply In_firstn. exact Hy.
Qed.

Lemma StronglySorted_map {A B : Type} (f : A -> B) (R : B -> B -> Prop)
    (l : list A) :
  StronglySorted (fun x y => R (f x) (f y)) l -> StronglySorted R (map f l).
Proof.
  induction 1 as [| x l Hs IH Hx]; simpl; constructor; [assumption |].
  apply Forall_map. exact Hx.
Qed.

Lemma slice_to_nonneg {A : Type} (l : list A) (k : Z) :
  (0 <= k)%Z -> slice_to l k = firstn (Z.to_nat k) l.
Proof.
  intros H. unfold slice_to.
  destruct (k <? 0)%Z eqn:E; [apply Z.ltb_lt in E; lia | reflexivity].
Qed.

(** ** The batched-serving candidates *)

(** C3.  For a step with [m] entries and a non-negative [top_k], the
    candidates are the entries in descending order of log-probability,
    entries of equal log-probability staying in the order of the mapping,
    cut after [top_k] entries.  Each candidate's probability is the
    exponential of its log-probability, the list is as long as the smaller
    of [top_k] and [m], and every candidate stems from an entry the backend
    supplied. *)
Theorem vllm_candidates_sorted_stable_cut
    (top_k : Z) (token_data : list (Z * Logprob)) :
  (0 <= top_k)%Z ->
  let key := fun e : Z * Logprob => logprob (snd e) in
  let candidate := fun e : Z * Logprob =>
    {| token := decoded_token (snd e); token_id := fst e;
       logit := logprob (snd e); probability := exp (logprob (snd e)) |} in
  let token_info := vllm_token_info top_k token_data in
  (exists sorted,
      Permutation token_data sorted
      /\ StronglySorted (key_ge key) sorted
      /\ (forall v, filter (has_key key v) sorted
                    = filter (has_key key v) token_data)
      /\ token_info = map candidate (firstn (Z.to_nat top_k) sorted))
  /\ StronglySorted (key_ge logit) token_info
  /\ Forall (fun c => probability c = exp (logit c)) token_info
  /\ length token_info = Nat.min (Z.to_nat top_k) (length token_data)
  /\ Forall (fun c => exists e, In e token_data /\ c = candidate e) token_info.
Proof.
  intros Hk key candidate token_info.
  assert (Heq : token_info
                = map candidate
                    (firstn (Z.to_nat top_k) (sort_desc key token_data))).
  { subst token_info. unfold vllm_token_info.
    rewrite slice_to_nonneg by exact Hk.
    rewrite sort_desc_map.
    rewrite (sort_desc_ext _ key) by (intros [t lp]; reflexivity).
    rewrite firstn_map, map_map.
    apply map_ext. intros [t lp]. reflexivity. }
  split; [| split; [| split; [| split]]].
  - exists (sort_desc key token_data).
    split; [apply sort_desc_perm |].
    split; [apply sort_desc_sorted |].
    split; [intros v; apply sort_desc_stable | exact Heq].
  - rewrite Heq. apply StronglySorted_map, StronglySorted_firstn.
    apply (sort_desc_sorted key).
  - rewrite Heq. apply Forall_map, Forall_forall. reflexivity.
  - rewrite Heq, length_map, length_firstn, sort_desc_length. reflexivity.
  - rewrite Heq. apply Forall_map, Forall_forall. intros e He.
    exists e. split; [| reflexivity].
    apply In_firstn in He.
    eapply Permutation_in; [apply Permutation_sym, sort_desc_perm | exact He].
Qed.

(** ** What a computation leaves unchanged *)

Section Keeps.
Context {W X : Type} (f : W -> X).

Lemma keeps_ret {A} (a : A) : keeps f (ret a).
Proof. intros w. reflexivity. Qed.

Lemma keeps_raise {A} (e : exn) : keeps f (raise (A := A) e).
Proof. intros w. reflexivity. Qed.

Lemma keeps_lift {A} (r : exn + A) : keeps f (lift r).
Proof. intros w. reflexivity. Qed.

Lemma keeps_get : keeps f get.
Proof. intros w. reflexivity. Qed.

Lemma keeps_modify (g : W -> W) :
  (forall w, f (g w) = f w) -> keeps f (modify g).
Proof. intros H w. apply H. Qed.

Lemma keeps_bind {A B} (m : M W A) (k : A -> M W B) :
  keeps f m -> (forall a, keeps f (k a)) -> keeps f (bind m k).
Proof.
  intros Hm Hk w. unfold bind. specialize (Hm w).
  destruct (m w) as [[e | a] w']; simpl in *; [assumption |].
  now rewrite Hk.
Qed.

Lemma keeps_for_each {A B} (body : A -> B -> M W B) l acc :
  (forall x acc, keeps f (body x acc)) -> keeps f (for_each body l acc).
Proof.
  intros Hb. revert acc. induction l as [| x l IH]; intros acc; simpl.
  - apply keeps_ret.
  - apply keeps_bind; [apply Hb | exact IH].
Qed.

End Keeps.

Create HintDb keeps.

#[local] Hint Resolve keeps_ret keeps_raise keeps_lift keeps_get : keeps.

(** Breaks a computation into its binds, branches and loops. *)
Ltac keeps_step :=
  match goal with
  | |- keeps _ (bind _ _) => apply keeps_bind; [| intros ?]
  | |- keeps _ (for_each _ _ _) => apply keeps_for_each; intros ? ?
  | |- keeps _ (modify _) => apply keeps_modify; intros ?; reflexivity
  | |- keeps _ (match ?x with _ => _ end) => destruct x
  | |- keeps _ (if ?b then _ else _) => destruct b
  | |- keeps _ (let '(_, _) := ?x in _) => destruct x
  | |- keeps _ (match ?x with _ => _ end _) => destruct x
  | |- keeps _ _ => solve [auto with keeps]
  end.

Ltac keeps_auto := repeat keeps_step.

(** ** The estimator *)

Section EstimatorFacts.
Context {AnalyzerObj VisionConfig Attentions AttentionData : Type}.
Context {AC : AnalyzerClass AnalyzerObj VisionConfig Attentions AttentionData}.

Abbreviation World' := (World AnalyzerObj VisionConfig Attentions AttentionData).
Abbreviation Output := (GenerationOutput Attentions).
Abbreviation Model' := (Model VisionConfig).

(** *** The configured [top_k] *)

Lemma process_logits_keeps_top_k logits tokenizer :
  keeps (fun w : World' => top_k (self w)) (_process_logits logits tokenizer).
Proof.
  unfold _process_logits, tokenizer_decode. keeps_auto.
Qed.

Lemma logits_step_keeps_top_k tokenizer logits all_metrics :
  keeps (fun w : World' => top_k (self w))
    (logits_step tokenizer logits all_metrics).
Proof.
  unfold logits_step, calculate_raw_entropy, calculate_semantic_entropy,
    self_analyzer.
  apply keeps_bind; [apply process_logits_keeps_top_k | intros ?].
  keeps_auto.
Qed.

Lemma backend_outputs_keeps_top_k is_vlm (go : Output) (model : option Model')
    tokenizer processor :
  keeps (fun w : World' => top_k (self w))
    (backend_outputs is_vlm go model tokenizer processor).
Proof.
  unfold backend_outputs, vlm_outputs, vllm_outputs, together_outputs,
    huggingface_outputs, vllm_step, together_step, getattr, tokenizer_decode,
    calculate_raw_entropy, calculate_semantic_entropy, self_analyzer.
  repeat first [ apply logits_step_keeps_top_k | keeps_step ].
Qed.

Lemma finish_keeps_top_k is_vlm input_query (locals : Locals AttentionData) :
  keeps (fun w : World' => top_k (self w)) (finish is_vlm input_query locals).
Proof.
  unfold finish, overall_insight_call, self_analyzer.
  destruct locals as [[all_metrics generated_text] attention_data].
  keeps_auto.
Qed.

Lemma analyze_generation_keeps_top_k (go : Output) (model : option Model')
    tokenizer processor prompt :
  keeps (fun w : World' => top_k (self w))
    (analyze_generation go model tokenizer processor prompt).
Proof.
  unfold analyze_generation.
  apply keeps_bind; [apply keeps_get | intros w0].
  apply keeps_bind; [apply backend_outputs_keeps_top_k | intros locals].
  apply finish_keeps_top_k.
Qed.

(** C4.  A remote model id forces [top_k] to the cap of 5 when the estimator
    is constructed, whatever the caller asked for; without a remote model id
    the estimator keeps the caller's value; and [analyze_generation] never
    changes the configured value afterwards. *)
Theorem top_k_capped_at_construction
    (requested : Z) (analyzer : option AnalyzerObj) (key : option string) :
  (forall id : string,
      id <> ""%string ->
      top_k (UncertaintyEstimator_init requested analyzer key (Some id)) = 5%Z)
  /\ top_k (UncertaintyEstimator_init requested analyzer key None) = requested
  /\ (forall (go : Output) (model : option Model') tokenizer processor prompt
             (w : World'),
         top_k (self (snd (analyze_generation go model tokenizer processor
                             prompt w)))
         = top_k (self w)).
Proof.
  split; [| split].
  - intros id Hid. destruct id as [| c id]; [contradiction | reflexivity].
  - reflexivity.
  - intros. apply (analyze_generation_keeps_top_k go model tokenizer
                     processor prompt w).
Qed.

(** *** The choice of the backend branch *)

Lemma is_vlm_output_true (go : Output) (est : UncertaintyEstimator AnalyzerObj) :
  is_vlm_output go est = true <->
  attentions go <> None
  /\ exists a, analyzer est = Some a /\ isinstance_VLMAnalyzer a = true.
Proof.
  unfold is_vlm_output. split.
  - intros H. apply andb_true_iff in H as [Hatt Han]. split.
    + destruct (attentions go); [discriminate | discriminate Hatt].
    + destruct (analyzer est) as [a |]; [| discriminate]. now exists a.
  - intros [Hatt [a [Ha Hvlm]]]. rewrite Ha, Hvlm.
    destruct (attentions go); [reflexivity | contradiction].
Qed.

Lemma is_vlm_output_false (go : Output) (est : UncertaintyEstimator AnalyzerObj) :
  ~ (attentions go <> None
     /\ exists a, analyzer est = Some a /\ isinstance_VLMAnalyzer a = true) ->
  is_vlm_output go est = false.
Proof.
  intros H. destruct (is_vlm_output go est) eqn:E; [| reflexivity].
  apply is_vlm_output_true in E. contradiction.
Qed.

Lemma analyze_generation_unfold (go : Output) (model : option Model')
    tokenizer processor prompt (w : World') :
  analyze_generation go model tokenizer processor prompt w
  = bind (backend_outputs (is_vlm_output go (self w)) go model tokenizer
            processor)
      (finish (is_vlm_output go (self w)) (or_empty prompt)) w.
Proof. reflexivity. Qed.

Lemma backend_outputs_no_outputs (go : Output) (model : option Model')
    tokenizer processor (w : World') :
  outputs go = None ->
  backend_outputs false go model tokenizer processor w
  = (if opt_str_truthy (together_model (self w))
     then together_outputs go
     else huggingface_outputs go tokenizer processor) w.
Proof. intros H. unfold backend_outputs. rewrite H. reflexivity. Qed.

Lemma is_some_true {A} (o : option A) : o <> None -> is_some o = true.
Proof. destruct o; [reflexivity | contradiction]. Qed.

(** C1.  [analyze_generation] picks its branch in this order: an output
    with attentions, analysed by a vision-language analyzer, takes the
    vision-language branch; otherwise an output with an [outputs] attribute
    takes the batched-serving branch; otherwise an estimator with a remote
    model id takes the remote branch; otherwise the dense-logits branch is
    taken, and that branch returns a result only when both the tokenizer
    and the processor were supplied. *)
Theorem backend_priority (go : Output) (model : option Model')
    tokenizer processor prompt (w : World') :
  let vlm :=
    attentions go <> None
    /\ exists a, analyzer (self w) = Some a /\ isinstance_VLMAnalyzer a = true in
  let remote := opt_str_truthy (together_model (self w)) = true in
  let run := analyze_generation go model tokenizer processor prompt w in
  (vlm ->
   run = bind (vlm_outputs go model tokenizer processor)
           (finish true (or_empty prompt)) w)
  /\ (~ vlm -> outputs go <> None ->
      run = bind (vllm_outputs go) (finish false (or_empty prompt)) w)
  /\ (~ vlm -> outputs go = None -> remote ->
      run = bind (together_outputs go) (finish false (or_empty prompt)) w)
  /\ (~ vlm -> outputs go = None -> ~ remote ->
      run = bind (huggingface_outputs go tokenizer processor)
              (finish false (or_empty prompt)) w
      /\ forall r w', run = (inr r, w') ->
                      tokenizer <> None /\ processor <> None).
Proof.
  intros vlm remote run. subst run vlm remote.
  rewrite analyze_generation_unfold.
  split; [| split; [| split]].
  - intros Hvlm. apply is_vlm_output_true in Hvlm. now rewrite Hvlm.
  - intros Hvlm Hout. rewrite (is_vlm_output_false _ _ Hvlm).
    unfold backend_outputs. now rewrite (is_some_true _ Hout).
  - intros Hvlm Hout Hrem. rewrite (is_vlm_output_false _ _ Hvlm).
    apply bind_cong_l. rewrite backend_outputs_no_outputs by exact Hout.
    now rewrite Hrem.
  - intros Hvlm Hout Hrem. rewrite (is_vlm_output_false _ _ Hvlm).
    assert (Hb : backend_outputs false go model tokenizer processor w
                 = huggingface_outputs go tokenizer processor w).
    { rewrite backend_outputs_no_outputs by exact Hout.
      destruct (opt_str_truthy (together_model (self w)));
        [exfalso; now apply Hrem | reflexivity]. }
    split; [now apply bind_cong_l |].
    intros r w' Hrun. unfold bind in Hrun. rewrite Hb in Hrun.
    unfold huggingface_outputs in Hrun.
    destruct tokenizer, processor; simpl in Hrun; try discriminate Hrun.
    split; discriminate.
Qed.

(** C8.  On the dense-logits branch a missing tokenizer or processor makes
    [analyze_generation] raise the configuration error at once: nothing is
    returned, no collaborator has been called and the estimator is as it
    was. *)
Theorem dense_branch_needs_tokenizer_and_processor
    (go : Output) (model : option Model') tokenizer processor prompt
    (w : World') :
  is_vlm_output go (self w) = false ->
  outputs go = None ->
  opt_str_truthy (together_model (self w)) = false ->
  tokenizer = None \/ processor = None ->
  analyze_generation go model tokenizer processor prompt w
  = (inl (ValueError
            "Tokenizer and processor required for HuggingFace models"), w).
Proof.
  intros Hvlm Hout Hrem Hmissing.
  rewrite analyze_generation_unfold, Hvlm.
  apply bind_raise.
  rewrite backend_outputs_no_outputs by exact Hout. rewrite Hrem.
  unfold huggingface_outputs.
  destruct Hmissing as [-> | ->]; [reflexivity |].
  destruct tokenizer; reflexivity.
Qed.

(** *** The overall insight *)

Lemma finish_run (is_vlm : bool) input_query all_metrics generated_text
    (attention_data : option AttentionData) (w : World') a :
  analyzer (self w) = Some a ->
  let passed := if is_vlm then attention_data else None in
  let w' :=
    log (generate_overall_insight_call VisionConfig Attentions all_metrics
           input_query generated_text passed) w in
  finish is_vlm input_query (all_metrics, generated_text, attention_data) w
  = match generate_overall_insight a all_metrics input_query generated_text
            passed with
    | inl e => (inl e, w')
    | inr o =>
        (inr {| token_metrics := all_metrics; overall_insight := o |}, w')
    end.
Proof.
  intros Ha passed w'. subst passed w'.
  unfold finish, overall_insight_call, self_analyzer.
  destruct is_vlm; unfold bind, get, modify, lift, ret; rewrite Ha;
    match goal with
    | |- context [generate_overall_insight ?a ?m ?q ?t ?p] =>
        destruct (generate_overall_insight a m q t p)
    end; reflexivity.
Qed.

(** C6, as the code has it.  Once a branch has filled the step metrics, the
    outcome of [analyze_generation] is the outcome of the one call to
    [generate_overall_insight]: when that call raises, the exception leaves
    [analyze_generation] and no result is returned; when it returns, the
    result carries every step's metrics and the returned insight, which is
    absent when the call returned [None]. *)
Theorem insight_outcome_decides
    (go : Output) (model : option Model') tokenizer processor prompt
    (w w1 : World') all_metrics generated_text attention_data a :
  let is_vlm := is_vlm_output go (self w) in
  let passed := if is_vlm then attention_data else None in
  let w2 :=
    log (generate_overall_insight_call VisionConfig Attentions all_metrics
           (or_empty prompt) generated_text passed) w1 in
  backend_outputs is_vlm go model tokenizer processor w
  = (inr (all_metrics, generated_text, attention_data), w1) ->
  analyzer (self w1) = Some a ->
  analyze_generation go model tokenizer processor prompt w
  = match generate_overall_insight a all_metrics (or_empty prompt)
            generated_text passed with
    | inl e => (inl e, w2)
    | inr o =>
        (inr {| token_metrics := all_metrics; overall_insight := o |}, w2)
    end.
Proof.
  intros is_vlm passed w2 Hrun Ha. subst is_vlm passed w2.
  rewrite analyze_generation_unfold.
  rewrite (bind_ok _ _ _ _ _ Hrun).
  now apply finish_run.
Qed.

(** *** The remote branch *)

Lemma index_nth_error {A} (l : list A) i x :
  nth_error l i = Some x -> index l i = inr x.
Proof. intros H. unfold index. now rewrite H. Qed.

Lemma nth_error_in_range {A} (l : list A) i :
  i < length l -> exists x, nth_error l i = Some x.
Proof.
  intros H. destruct (nth_error l i) as [x |] eqn:E; [now exists x |].
  apply nth_error_None in E. lia.
Qed.

(** The record the remote branch builds for one position. *)
Lemma together_step_run d step tok tid lp all_metrics (w : World') :
  nth_error (dict_tokens d) step = Some tok ->
  nth_error (dict_token_ids d) step = Some tid ->
  nth_error (dict_token_logprobs d) step = Some lp ->
  together_step d step all_metrics w
  = (inr (all_metrics ++
          [UncertaintyMetrics_init (1 - exp lp) 0
             [{| token := tok; token_id := tid; logit := lp;
                 probability := exp lp |}]]), w).
Proof.
  intros Htok Htid Hlp. unfold together_step, bind, lift, ret.
  rewrite (index_nth_error _ _ _ Hlp), (index_nth_error _ _ _ Htok),
    (index_nth_error _ _ _ Htid).
  reflexivity.
Qed.

(** The loop over the positions [start .. start + n - 1] returns, and
    extends the list by one record per position. *)
Lemma together_loop_run d n : forall start all_metrics (w : World'),
  start + n <= length (dict_tokens d) ->
  length (dict_token_logprobs d) = length (dict_tokens d) ->
  length (dict_token_ids d) = length (dict_tokens d) ->
  exists ms,
    for_each (together_step d) (seq start n) all_metrics w
    = (inr (all_metrics ++ ms), w)
    /\ length ms = n
    /\ forall i tok tid lp,
         i < n ->
         nth_error (dict_tokens d) (start + i) = Some tok ->
         nth_error (dict_token_ids d) (start + i) = Some tid ->
         nth_error (dict_token_logprobs d) (start + i) = Some lp ->
         nth_error ms i
         = Some (UncertaintyMetrics_init (1 - exp lp) 0
                   [{| token := tok; token_id := tid; logit := lp;
                       probability := exp lp |}]).
Proof.
  induction n as [| n IH]; intros start all_metrics w Hlen Hlps Hids.
  - exists []. simpl. rewrite app_nil_r. repeat split. intros; lia.
  - destruct (nth_error_in_range (dict_tokens d) start) as [tok Htok]; [lia |].
    destruct (nth_error_in_range (dict_token_ids d) start) as [tid Htid];
      [lia |].
    destruct (nth_error_in_range (dict_token_logprobs d) start) as [lp Hlp];
      [lia |].
    simpl seq. simpl for_each.
    rewrite (bind_ok _ _ _ _ _
               (together_step_run d start tok tid lp all_metrics w
                  Htok Htid Hlp)).
    destruct (IH (S start)
                (all_metrics ++
                 [UncertaintyMetrics_init (1 - exp lp) 0
                    [{| token := tok; token_id := tid; logit := lp;
                        probability := exp lp |}]]) w)
      as [ms [Hrun [Hms Hnth]]]; [lia | assumption | assumption |].
    exists (UncertaintyMetrics_init (1 - exp lp) 0
              [{| token := tok; token_id := tid; logit := lp;
                  probability := exp lp |}] :: ms).
    split; [| split].
    + rewrite Hrun. now rewrite <- app_assoc.
    + simpl. now rewrite Hms.
    + intros i tok' tid' lp' Hi Htok' Htid' Hlp'. destruct i as [| i].
      * rewrite Nat.add_0_r in *. simpl. congruence.
      * simpl. replace (start + S i) with (S start + i) in * by lia.
        now apply Hnth; [lia | | |].
Qed.

(** C2.  For a remote response of [n] tokens with one log-probability and
    one token id per token, the remote branch builds exactly [n] step
    records; the record of a position holds the single candidate of that
    position, with probability [exp logprob], has raw entropy
    [1 - exp logprob] and semantic entropy [0]; and these records are the
    [token_metrics] of the result whenever the insight call returns. *)
Theorem remote_steps_one_candidate_each
    (go : Output) (d : TogetherOutput) (model : option Model')
    tokenizer processor prompt (w : World') :
  is_vlm_output go (self w) = false ->
  outputs go = None ->
  opt_str_truthy (together_model (self w)) = true ->
  items go = Some d ->
  length (dict_token_logprobs d) = length (dict_tokens d) ->
  length (dict_token_ids d) = length (dict_tokens d) ->
  exists ms : list UncertaintyMetrics,
    length ms = length (dict_tokens d)
    /\ (forall i tok tid lp,
           nth_error (dict_tokens d) i = Some tok ->
           nth_error (dict_token_ids d) i = Some tid ->
           nth_error (dict_token_logprobs d) i = Some lp ->
           nth_error ms i
           = Some {| raw_entropy := 1 - exp lp;
                     semantic_entropy := 0;
                     token_predictions :=
                       [{| token := tok; token_id := tid; logit := lp;
                           probability := exp lp |}];
                     insight := None |})
    /\ backend_outputs false go model tokenizer processor w
       = (inr (ms, dict_text d, None), w)
    /\ (forall a o,
           analyzer (self w) = Some a ->
           generate_overall_insight a ms (or_empty prompt) (dict_text d) None
           = inr o ->
           fst (analyze_generation go model tokenizer processor prompt w)
           = inr {| token_metrics := ms; overall_insight := o |}).
Proof.
  intros Hvlm Hout Hrem Hitems Hlps Hids.
  destruct (together_loop_run d (length (dict_tokens d)) 0 [] w)
    as [ms [Hrun [Hlen Hnth]]]; [lia | assumption | assumption |].
  assert (Hb : backend_outputs false go model tokenizer processor w
               = (inr (ms, dict_text d, None), w)).
  { rewrite backend_outputs_no_outputs by exact Hout. rewrite Hrem.
    unfold together_outputs. rewrite Hitems.
    unfold bind at 1. unfold ret at 1.
    rewrite (bind_ok _ _ _ _ _ Hrun). reflexivity. }
  exists ms. split; [exact Hlen |]. split; [| split; [exact Hb |]].
  - intros i tok tid lp Htok Htid Hlp.
    apply (Hnth i tok tid lp); try assumption.
    apply nth_error_Some. congruence.
  - intros a o Ha Ho.
    rewrite analyze_generation_unfold, Hvlm.
    rewrite (bind_ok _ _ _ _ _ Hb).
    rewrite (finish_run false _ _ _ None w a Ha). simpl.
    now rewrite Ho.
Qed.

(** *** The batched-serving branch *)

Lemma vllm_token_info_nil (k : Z) : vllm_token_info k [] = [].
Proof.
  unfold vllm_token_info, slice_to. simpl sort_desc.
  destruct (k <? 0)%Z; now rewrite firstn_nil.
Qed.

(** A step without candidates appends nothing and calls nobody. *)
Lemma vllm_step_skip token_data all_metrics (w : World') :
  vllm_token_info (top_k (self w)) token_data = [] ->
  vllm_step token_data all_metrics w = (inr all_metrics, w).
Proof.
  intros H. unfold vllm_step, bind, get. now rewrite H.
Qed.

(** A step with candidates appends one record; with an analyzer it asks
    the analyzer for both entropies. *)
Lemma vllm_step_run token_data all_metrics (w : World') a :
  analyzer (self w) = Some a ->
  vllm_token_info (top_k (self w)) token_data <> [] ->
  let token_info := vllm_token_info (top_k (self w)) token_data in
  let probs := map probability token_info in
  vllm_step token_data all_metrics w
  = (inr (all_metrics ++
          [UncertaintyMetrics_init (_calculate_raw_entropy a probs)
             (_calculate_semantic_entropy a token_info) token_info]),
     log (calculate_semantic_entropy_call VisionConfig Attentions
            AttentionData token_info)
       (log (calculate_raw_entropy_call VisionConfig Attentions
               AttentionData probs) w)).
Proof.
  intros Ha Hne token_info probs. subst probs token_info.
  unfold vllm_step, bind at 1, get.
  destruct (vllm_token_info (top_k (self w)) token_data) as [| c cs] eqn:E;
    [contradiction |].
  rewrite Ha. simpl is_some. cbv iota.
  unfold calculate_raw_entropy, calculate_semantic_entropy, self_analyzer,
    bind, get, modify, ret, log.
  simpl. rewrite Ha. simpl. rewrite Ha. reflexivity.
Qed.

Lemma vllm_outputs_run (go : Output) out rest steps (w : World') :
  outputs go = Some (out :: rest) ->
  logprobs out = Some steps ->
  vllm_outputs go w
  = bind (for_each vllm_step steps [])
      (fun all_metrics => ret (all_metrics, text out, None)) w.
Proof.
  intros Hout Hlp. unfold vllm_outputs. rewrite Hout.
  unfold getattr. unfold bind at 1. unfold ret at 1.
  unfold bind at 1. unfold lift, index. simpl nth_error. cbv iota.
  rewrite Hlp. destruct steps; reflexivity.
Qed.

(** C5, as the code has it.  A batched-serving step for which the backend
    supplies no candidate leaves no record: the analysis runs exactly as it
    does on the output without that step, with the same result, the same
    calls and no failure on account of the empty step. *)
Theorem empty_vllm_step_leaves_no_record
    (att : option Attentions) seqs sc txt rest its
    (pre post : list (list (Z * Logprob)))
    (model : option Model') tokenizer processor prompt (w : World') :
  let go := fun steps : list (list (Z * Logprob)) =>
    {| attentions := att; sequences := seqs; scores := sc;
       outputs := Some ({| text := txt; logprobs := Some steps |} :: rest);
       items := its |} in
  is_vlm_output (go (pre ++ [] :: post)) (self w) = false ->
  analyze_generation (go (pre ++ [] :: post)) model tokenizer processor
    prompt w
  = analyze_generation (go (pre ++ post)) model tokenizer processor prompt w.
Proof.
  intros go Hvlm.
  assert (Hvlm' : is_vlm_output (go (pre ++ post)) (self w) = false)
    by exact Hvlm.
  rewrite !analyze_generation_unfold, Hvlm, Hvlm'.
  apply bind_cong_l.
  change (vllm_outputs (go (pre ++ [] :: post)) w
          = vllm_outputs (go (pre ++ post)) w).
  rewrite (vllm_outputs_run (go (pre ++ [] :: post)) _ rest
             (pre ++ [] :: post) w eq_refl eq_refl).
  rewrite (vllm_outputs_run (go (pre ++ post)) _ rest
             (pre ++ post) w eq_refl eq_refl).
  apply bind_cong_l.
  rewrite !for_each_app. apply bind_ext. intros acc w'.
  simpl for_each. unfold bind at 1.
  now rewrite vllm_step_skip by apply vllm_token_info_nil.
Qed.

(** *** The dense-logits candidates *)

Lemma Rsum_ge_member (l : list R) x :
  Forall (fun y => 0 < y)%R l -> In x l -> (x <= Rsum l)%R.
Proof.
  induction 1 as [| y l Hy Hl IH]; intros Hin; [contradiction |].
  assert (Hs : (0 <= Rsum l)%R).
  { clear - Hl. induction Hl as [| z l Hz Hl IH]; simpl; lra. }
  simpl. destruct Hin as [-> | Hin]; [lra |].
  specialize (IH Hin). lra.
Qed.

(** Every softmax value is a probability. *)
Lemma softmax_row_range (row : list R) p :
  In p (softmax_row row) -> (0 <= p <= 1)%R.
Proof.
  unfold softmax_row. intros Hin.
  apply in_map_iff in Hin as [e [<- He]].
  assert (Hpos : Forall (fun y => 0 < y)%R (map exp row)).
  { apply Forall_map, Forall_forall. intros x _. apply exp_pos. }
  assert (He0 : (0 < e)%R) by (apply (proj1 (Forall_forall _ _) Hpos _ He)).
  pose proof (Rsum_ge_member _ _ Hpos He) as Hle.
  assert (Hs : (0 < Rsum (map exp row))%R) by lra.
  split.
  - apply Rlt_le. now apply Rdiv_lt_0_compat.
  - apply (Rmult_le_reg_r (Rsum (map exp row))); [exact Hs |].
    unfold Rdiv. rewrite Rmult_assoc, Rinv_l by lra. lra.
Qed.

Lemma softmax_row_length (row : list R) :
  length (softmax_row row) = length row.
Proof. unfold softmax_row. now rewrite !length_map. Qed.

(** An entry of an enumerated list sits at its index. *)
Lemma In_combine_seq {A} (l : list A) : forall s i x,
  In (i, x) (combine (seq s (length l)) l) ->
  s <= i /\ nth_error l (i - s) = Some x.
Proof.
  induction l as [| y l IH]; intros s i x Hin; [contradiction |].
  simpl in Hin. destruct Hin as [Heq | Hin].
  - inversion Heq; subst. rewrite Nat.sub_diag. split; [lia | reflexivity].
  - apply IH in Hin as [Hle Hnth]. split; [lia |].
    replace (i - s) with (S (i - S s)) by lia. exact Hnth.
Qed.

Lemma combine_gathered {A B C} (g : A -> B) (top : list (A * C)) :
  combine (combine (map fst top) (map g (map fst top))) (map snd top)
  = map (fun ip => (fst ip, g (fst ip), snd ip)) top.
Proof.
  induction top as [| [i p] top IH]; [reflexivity |].
  simpl. now rewrite IH.
Qed.

(** The loop of [_process_logits] decodes every selected index, in order,
    and yields one candidate per index. *)
Lemma decode_loop_run (t : Tokenizer) (l : list (nat * R * R)) :
  forall token_info (w : World'),
  for_each
    (fun '(token_id, logit, prob) token_info =>
       bind (tokenizer_decode (Some t) [Z.of_nat token_id] false)
         (fun token =>
            ret (token_info ++
                 [{| token := token; token_id := Z.of_nat token_id;
                     logit := logit; probability := prob |}])))
    l token_info w
  = (inr (token_info ++
          map (fun x =>
                 {| token := decode t [Z.of_nat (fst (fst x))] false;
                    token_id := Z.of_nat (fst (fst x));
                    logit := snd (fst x); probability := snd x |}) l),
     {| self := self w;
        calls := calls w ++
                 map (fun x =>
                        decode_call VisionConfig Attentions AttentionData
                          [Z.of_nat (fst (fst x))] false) l |}).
Proof.
  induction l as [| [[i lg] p] l IH]; intros token_info w.
  - simpl. rewrite !app_nil_r. now destruct w.
  - simpl for_each. unfold bind at 1. unfold tokenizer_decode.
    unfold bind at 1 2, modify, ret at 1 2. rewrite IH.
    unfold log. simpl. now rewrite <- !app_assoc.
Qed.

Lemma process_logits_run (row : list R) rest (t : Tokenizer) (w : World') :
  (0 <= top_k (self w) <= Z.of_nat (length row))%Z ->
  let top :=
    firstn (Z.to_nat (top_k (self w)))
      (sort_desc snd (combine (seq 0 (length row)) (softmax_row row))) in
  _process_logits (row :: rest) (Some t) w
  = (inr (map (fun ip =>
                 {| token := decode t [Z.of_nat (fst ip)] false;
                    token_id := Z.of_nat (fst ip);
                    logit := nth (fst ip) row 0%R;
                    probability := snd ip |}) top),
     {| self := self w;
        calls := calls w ++
                 map (fun ip =>
                        decode_call VisionConfig Attentions AttentionData
                          [Z.of_nat (fst ip)] false) top |}).
Proof.
  intros Hk top. unfold _process_logits.
  simpl softmax. unfold index. simpl nth_error. cbv iota.
  unfold bind at 1. unfold lift at 1.
  unfold bind at 1. unfold get at 1.
  unfold topk. rewrite softmax_row_length.
  replace ((top_k (self w) <? 0)%Z
           || (Z.of_nat (length row) <? top_k (self w))%Z) with false.
  2:{ symmetry. apply orb_false_iff. split; apply Z.ltb_ge; lia. }
  fold top. unfold bind at 1. unfold lift at 1.
  unfold bind at 1. unfold lift at 1.
  unfold gather. rewrite combine_gathered.
  rewrite decode_loop_run. simpl app. rewrite !map_map. reflexivity.
Qed.

Lemma process_logits_out_of_range (logits : Tensor) row rest tokenizer
    (w : World') :
  softmax logits = row :: rest ->
  (top_k (self w) < 0 \/ Z.of_nat (length row) < top_k (self w))%Z ->
  _process_logits logits tokenizer w
  = (inl (RuntimeError "selected index k out of range"), w).
Proof.
  intros Hsm Hk. unfold _process_logits. rewrite Hsm.
  unfold index. simpl nth_error. cbv iota.
  unfold bind at 1. unfold lift at 1.
  unfold bind at 1. unfold get at 1.
  unfold topk.
  replace ((top_k (self w) <? 0)%Z
           || (Z.of_nat (length row) <? top_k (self w))%Z) with true.
  2:{ symmetry. apply orb_true_iff.
      destruct Hk; [left | right]; apply Z.ltb_lt; lia. }
  reflexivity.
Qed.

(** C9, as the code has it.  With the configured [top_k] between 0 and the
    size [V] of the vocabulary, [_process_logits] returns exactly [top_k]
    candidates in descending order of probability; each probability lies
    in [0, 1] and is the softmax value of the candidate's token id, and the
    candidate's logit is the raw score of that id.  With [top_k] above [V]
    the selection raises the library's range error: no candidate is
    returned. *)
Theorem dense_candidates_top_k_within_vocabulary
    (row : list R) (rest : Tensor) (t : Tokenizer) (w : World') :
  let k := top_k (self w) in
  let run := _process_logits (row :: rest) (Some t) w in
  ((0 <= k <= Z.of_nat (length row))%Z ->
   exists token_info w',
     run = (inr token_info, w')
     /\ self w' = self w
     /\ length token_info = Z.to_nat k
     /\ StronglySorted (key_ge probability) token_info
     /\ Forall
          (fun c =>
             (0 <= probability c <= 1)%R
             /\ exists i,
                  i < length row
                  /\ token_id c = Z.of_nat i
                  /\ token c = decode t [Z.of_nat i] false
                  /\ nth_error row i = Some (logit c)
                  /\ nth_error (softmax_row row) i = Some (probability c))
          token_info)
  /\ ((Z.of_nat (length row) < k)%Z ->
      run = (inl (RuntimeError "selected index k out of range"), w)).
Proof.
  intros k run. subst k run. split.
  - intros Hk. rewrite (process_logits_run row rest t w Hk).
    eexists. eexists. split; [reflexivity |].
    split; [reflexivity |].
    split; [| split].
    + rewrite length_map, length_firstn, sort_desc_length, length_combine,
        length_seq, softmax_row_length. lia.
    + apply StronglySorted_map, StronglySorted_firstn.
      apply (sort_desc_sorted (A := nat * R) snd).
    + apply Forall_map, Forall_forall. intros [i p] Hin. simpl.
      apply In_firstn in Hin.
      apply (Permutation_in _ (Permutation_sym (sort_desc_perm snd _))) in Hin.
      rewrite <- (softmax_row_length row) in Hin at 1.
      apply In_combine_seq in Hin as [_ Hnth].
      rewrite Nat.sub_0_r in Hnth.
      assert (Hi : i < length row).
      { rewrite <- softmax_row_length. apply nth_error_Some. congruence. }
      split; [apply (softmax_row_range row), (nth_error_In _ _ Hnth) |].
      exists i. repeat split; try assumption.
      apply nth_error_nth'. exact Hi.
  - intros Hk. apply (process_logits_out_of_range _ (softmax_row row)
                        (softmax rest)); [reflexivity |].
    right. now rewrite softmax_row_length.
Qed.

(** *** The records of the batched-serving branch *)

(** With an analyzer, the loop over the steps leaves one record per step
    that has a candidate, in the order of the steps; the candidates of a
    record are those of its step, and the estimator is unchanged. *)
Lemma vllm_loop_run (a : AnalyzerObj) (steps : list (list (Z * Logprob))) :
  forall all_metrics (w : World'),
  analyzer (self w) = Some a ->
  exists w',
    for_each vllm_step steps all_metrics w
    = (inr (all_metrics ++
            map (fun token_info =>
                   UncertaintyMetrics_init
                     (_calculate_raw_entropy a (map probability token_info))
                     (_calculate_semantic_entropy a token_info) token_info)
              (filter list_truthy
                 (map (vllm_token_info (top_k (self w))) steps))), w')
    /\ self w' = self w.
Proof.
  induction steps as [| step steps IH]; intros all_metrics w Ha.
  - exists w. simpl. now rewrite app_nil_r.
  - simpl for_each. simpl map.
    destruct (vllm_token_info (top_k (self w)) step) as [| c cs] eqn:E.
    + rewrite (bind_ok _ _ _ _ _ (vllm_step_skip step all_metrics w E)).
      simpl filter. apply IH. exact Ha.
    + assert (Hne : vllm_token_info (top_k (self w)) step <> [])
        by (rewrite E; discriminate).
      rewrite (bind_ok _ _ _ _ _ (vllm_step_run step all_metrics w a Ha Hne)).
      rewrite E.
      match goal with
      | |- context [for_each vllm_step steps ?acc ?w1] =>
          destruct (IH acc w1) as [w' [Hrun Hself]]; [exact Ha |]
      end.
      exists w'. split; [| exact Hself].
      rewrite Hrun. simpl filter. simpl map. now rewrite <- app_assoc.
Qed.

Lemma vllm_branch_records (go : Output) out rest steps (w : World') a :
  outputs go = Some (out :: rest) ->
  logprobs out = Some steps ->
  analyzer (self w) = Some a ->
  exists w',
    vllm_outputs go w
    = (inr (map (fun token_info =>
                   UncertaintyMetrics_init
                     (_calculate_raw_entropy a (map probability token_info))
                     (_calculate_semantic_entropy a token_info) token_info)
              (filter list_truthy
                 (map (vllm_token_info (top_k (self w))) steps)),
            text out, None), w')
    /\ self w' = self w.
Proof.
  intros Hout Hlp Ha.
  destruct (vllm_loop_run a steps [] w Ha) as [w' [Hrun Hself]].
  exists w'. split; [| exact Hself].
  rewrite (vllm_outputs_run go out rest steps w Hout Hlp).
  now rewrite (bind_ok _ _ _ _ _ Hrun).
Qed.

(** *** An estimator without analyzer *)

(** Outside the vision-language branch the insight is asked of
    [self.analyzer] whatever it is: without an analyzer the call raises
    after the step metrics were computed. *)
Remark insight_needs_analyzer
    (go : Output) (model : option Model') tokenizer processor prompt
    (w w1 : World') locals :
  backend_outputs (is_vlm_output go (self w)) go model tokenizer processor w
  = (inr locals, w1) ->
  analyzer (self w1) = None ->
  analyze_generation go model tokenizer processor prompt w
  = (inl (AttributeError
            "'NoneType' object has no attribute 'generate_overall_insight'"),
     w1).
Proof.
  intros Hrun Hnone.
  rewrite analyze_generation_unfold.
  rewrite (bind_ok _ _ _ _ _ Hrun).
  destruct locals as [[all_metrics generated_text] attention_data].
  unfold finish, overall_insight_call, self_analyzer.
  destruct (is_vlm_output go (self w)); unfold bind, get; now rewrite Hnone.
Qed.

(** ** Further properties of the estimator *)

(** *** What a computation adds to the log of calls *)

Section Appends.
Variable P : Call VisionConfig Attentions AttentionData -> Prop.

Lemma appends_ret {A} (a : A) : appends (AnalyzerObj := AnalyzerObj) P (ret a).
Proof. intros w. exists []. simpl. now rewrite app_nil_r. Qed.

Lemma appends_raise {A} (e : exn) :
  appends (AnalyzerObj := AnalyzerObj) P (raise (A := A) e).
Proof. intros w. exists []. simpl. now rewrite app_nil_r. Qed.

Lemma appends_lift {A} (r : exn + A) :
  appends (AnalyzerObj := AnalyzerObj) P (lift r).
Proof. intros w. exists []. simpl. now rewrite app_nil_r. Qed.

Lemma appends_get : appends (AnalyzerObj := AnalyzerObj) P get.
Proof. intros w. exists []. simpl. now rewrite app_nil_r. Qed.

Lemma appends_log (c : Call VisionConfig Attentions AttentionData) :
  P c -> appends (AnalyzerObj := AnalyzerObj) P (modify (log c)).
Proof. intros Hc w. exists [c]. simpl. split; [reflexivity | now constructor]. Qed.

Lemma appends_set_analyzer (a : AnalyzerObj) :
  appends P (modify (set_analyzer a)).
Proof. intros w. exists []. simpl. now rewrite app_nil_r. Qed.

Lemma appends_bind {A B} (m : M World' A) (k : A -> M World' B) :
  appends P m -> (forall a, appends P (k a)) -> appends P (bind m k).
Proof.
  intros Hm Hk w. unfold bind. destruct (Hm w) as [l1 [H1 HP1]].
  destruct (m w) as [[e | a] w1]; simpl in *.
  - now exists l1.
  - destruct (Hk a w1) as [l2 [H2 HP2]].
    exists (l1 ++ l2). rewrite H2, H1, app_assoc. split; [reflexivity |].
    apply Forall_app. now split.
Qed.

Lemma appends_for_each {A B} (body : A -> B -> M World' B) l acc :
  (forall x acc, appends P (body x acc)) -> appends P (for_each body l acc).
Proof.
  intros Hb. revert acc. induction l as [| x l IH]; intros acc; simpl.
  - apply appends_ret.
  - apply appends_bind; [apply Hb | exact IH].
Qed.

End Appends.

(** Breaks a computation into its binds, branches and loops. *)
Ltac appends_step :=
  match goal with
  | |- appends _ (bind _ _) => apply appends_bind; [| intros ?]
  | |- appends _ (for_each _ _ _) => apply appends_for_each; intros ? ?
  | |- appends _ (modify (log _)) => apply appends_log; reflexivity
  | |- appends _ (modify (set_analyzer _)) => apply appends_set_analyzer
  | |- appends _ (ret _) => apply appends_ret
  | |- appends _ (raise _) => apply appends_raise
  | |- appends _ (lift _) => apply appends_lift
  | |- appends _ get => apply appends_get
  | |- appends _ (match ?x with _ => _ end) => destruct x
  | |- appends _ (if ?b then _ else _) => destruct b
  | |- appends _ (match ?x with _ => _ end _) => destruct x
  end.

Ltac appends_auto := repeat appends_step.

Ltac unfold_estimator :=
  unfold backend_outputs, vlm_outputs, vllm_outputs, together_outputs,
    huggingface_outputs, logits_step, _process_logits, vllm_step,
    together_step, finish, overall_insight_call, getattr, tokenizer_decode,
    calculate_raw_entropy, calculate_semantic_entropy, self_analyzer.

(** *** The estimator object across a call *)

Lemma backend_outputs_keeps_self (go : Output) (model : option Model')
    tokenizer processor :
  keeps (fun w : World' => self w)
    (backend_outputs false go model tokenizer processor).
Proof.
  unfold backend_outputs. cbv iota. unfold_estimator. keeps_auto.
Qed.

Lemma finish_keeps_self is_vlm input_query (locals : Locals AttentionData) :
  keeps (fun w : World' => self w) (finish is_vlm input_query locals).
Proof.
  destruct locals as [[all_metrics generated_text] attention_data].
  unfold_estimator. keeps_auto.
Qed.

Lemma keeps_bind_at {W X A B} (f : W -> X) (m : M W A) (k : A -> M W B) w v :
  f (snd (m w)) = v -> (forall a, keeps f (k a)) -> f (snd (bind m k w)) = v.
Proof.
  intros Hm Hk. unfold bind. destruct (m w) as [[e | a] w']; simpl in *.
  - exact Hm.
  - now rewrite Hk.
Qed.

Lemma self_analyzer_run attr (w : World') a :
  analyzer (self w) = Some a -> self_analyzer attr w = (inr a, w).
Proof. intros Ha. unfold self_analyzer, bind, get. now rewrite Ha. Qed.

(** Proves that what follows the lazy initialisation in the
    vision-language branch leaves the component [f] of the state alone. *)
Ltac by_keeps f :=
  match goal with
  | |- _ (snd (?m ?w)) = _ =>
      let K := fresh "K" in
      assert (K : keeps f m)
        by (cbv zeta; unfold_estimator; cbv zeta; keeps_auto);
      exact (K w)
  end.

Lemma vlm_outputs_self_initialised (go : Output) (model : option Model')
    tokenizer processor (w : World') a p :
  analyzer (self w) = Some a ->
  patch_size a = Some p ->
  self (snd (vlm_outputs go model tokenizer processor w)) = self w.
Proof.
  intros Ha Hp. unfold vlm_outputs.
  rewrite (bind_ok _ _ w a w (self_analyzer_run _ w a Ha)).
  rewrite Hp.
  rewrite (bind_ok _ _ w tt w eq_refl).
  by_keeps (fun w : World' => self w).
Qed.

(** X2.  A call of [analyze_generation] leaves the estimator object as it
    found it, whether it returns or raises, on every branch but the
    vision-language one, and on that one too once the analyzer has its
    patch size. *)
Theorem estimator_unchanged_by_analysis
    (go : Output) (model : option Model') tokenizer processor prompt
    (w : World') :
  is_vlm_output go (self w) = false
  \/ (exists a p, analyzer (self w) = Some a /\ patch_size a = Some p) ->
  self (snd (analyze_generation go model tokenizer processor prompt w))
  = self w.
Proof.
  intros H. rewrite analyze_generation_unfold.
  apply keeps_bind_at; [| intros locals; apply finish_keeps_self].
  destruct (is_vlm_output go (self w)) eqn:E.
  - destruct H as [H | [a [p [Ha Hp]]]]; [discriminate |].
    unfold backend_outputs.
    now apply (vlm_outputs_self_initialised go model tokenizer processor w a p).
  - apply (backend_outputs_keeps_self go model tokenizer processor w).
Qed.

(** X1.  An estimator without analyzer never returns a result: whatever
    the generation output and the other arguments, [analyze_generation]
    raises. *)
Theorem no_analyzer_no_result
    (go : Output) (model : option Model') tokenizer processor prompt
    (w : World') :
  analyzer (self w) = None ->
  exists e,
    fst (analyze_generation go model tokenizer processor prompt w) = inl e.
Proof.
  intros Hnone.
  assert (Hvlm : is_vlm_output go (self w) = false).
  { unfold is_vlm_output. rewrite Hnone. apply andb_false_r. }
  rewrite analyze_generation_unfold, Hvlm.
  pose proof (backend_outputs_keeps_self go model tokenizer processor w)
    as Hself. cbv beta in Hself.
  unfold bind.
  destruct (backend_outputs false go model tokenizer processor w)
    as [[e | [[all_metrics generated_text] attention_data]] w1].
  - now exists e.
  - simpl in Hself.
    exists (AttributeError
              "'NoneType' object has no attribute 'generate_overall_insight'").
    unfold finish, overall_insight_call, self_analyzer, bind, get.
    now rewrite Hself, Hnone.
Qed.

(** *** The lazy initialisation of the vision configuration *)

Lemma appends_from {A B} (P : Call VisionConfig Attentions AttentionData -> Prop)
    (m : M World' A) (k : A -> M World' B) w pre :
  (exists l, calls (snd (m w)) = pre ++ l /\ Forall P l) ->
  (forall a, appends P (k a)) ->
  exists l, calls (snd (bind m k w)) = pre ++ l /\ Forall P l.
Proof.
  intros [l1 [H1 HP1]] Hk. unfold bind.
  destruct (m w) as [[e | a] w1]; simpl in *.
  - now exists l1.
  - destruct (Hk a w1) as [l2 [H2 HP2]].
    exists (l1 ++ l2). rewrite H2, H1, app_assoc. split; [reflexivity |].
    apply Forall_app. now split.
Qed.

(** Proves that a computation only adds calls of the kind [P]. *)
Ltac by_appends P :=
  match goal with
  | |- exists l, calls (snd (?m ?w)) = _ /\ _ =>
      let K := fresh "K" in
      assert (K : appends P m)
        by (cbv zeta; unfold_estimator; cbv zeta; appends_auto);
      exact (K w)
  end.

Lemma finish_appends (P : Call VisionConfig Attentions AttentionData -> Prop)
    is_vlm input_query (locals : Locals AttentionData) :
  (forall c, is_insight_call c = true -> P c) ->
  appends (AnalyzerObj := AnalyzerObj) P (finish is_vlm input_query locals).
Proof.
  intros HP. destruct locals as [[all_metrics generated_text] attention_data].
  unfold_estimator.
  repeat first [ apply appends_log; apply HP; reflexivity | appends_step ].
Qed.

Lemma vlm_outputs_lazy_init (go : Output) (m : Model') tokenizer processor
    (w : World') a :
  analyzer (self w) = Some a ->
  patch_size a = None ->
  self (snd (vlm_outputs go (Some m) tokenizer processor w))
  = self (set_analyzer (set_vision_config a (vision_config m)) w)
  /\ exists l,
       calls (snd (vlm_outputs go (Some m) tokenizer processor w))
       = (calls w
          ++ [set_vision_config_call Attentions AttentionData
                (vision_config m)]) ++ l
       /\ Forall (fun c => is_set_vision_config_call c = false) l.
Proof.
  intros Ha Hp. unfold vlm_outputs.
  rewrite (bind_ok _ _ w a w (self_analyzer_run _ w a Ha)).
  rewrite Hp.
  rewrite (bind_ok _ _ w tt
             (set_analyzer (set_vision_config a (vision_config m))
                (log (set_vision_config_call Attentions AttentionData
                        (vision_config m)) w)) eq_refl).
  split.
  - change (self (set_analyzer (set_vision_config a (vision_config m)) w))
      with (self (set_analyzer (set_vision_config a (vision_config m))
                    (log (set_vision_config_call Attentions AttentionData
                            (vision_config m)) w))).
    by_keeps (fun w : World' => self w).
  - change (calls w
            ++ [set_vision_config_call Attentions AttentionData
                  (vision_config m)])
      with (calls (set_analyzer (set_vision_config a (vision_config m))
                     (log (set_vision_config_call Attentions AttentionData
                             (vision_config m)) w))).
    by_appends (fun c : Call VisionConfig Attentions AttentionData =>
                  is_set_vision_config_call c = false).
Qed.

(** X3.  On the vision-language branch an analyzer without patch size is
    initialised from the vision configuration of the model: the analyzer
    the estimator holds after the call is the initialised one, also when
    the analysis raises later on, and [set_vision_config] is called exactly
    once, before every other call.  Without a model the call raises at once
    and changes nothing. *)
Theorem vision_config_initialised_once
    (go : Output) (model : option Model') tokenizer processor prompt
    (w : World') a :
  is_vlm_output go (self w) = true ->
  analyzer (self w) = Some a ->
  patch_size a = None ->
  let run := analyze_generation go model tokenizer processor prompt w in
  match model with
  | None => run = (inl (AttributeError "object has no attribute 'config'"), w)
  | Some m =>
      self (snd run)
      = self (set_analyzer (set_vision_config a (vision_config m)) w)
      /\ exists l,
           calls (snd run)
           = (calls w
              ++ [set_vision_config_call Attentions AttentionData
                    (vision_config m)]) ++ l
           /\ Forall (fun c => is_set_vision_config_call c = false) l
  end.
Proof.
  intros Hvlm Ha Hp run. subst run.
  rewrite analyze_generation_unfold, Hvlm. unfold backend_outputs.
  destruct model as [m |].
  - destruct (vlm_outputs_lazy_init go m tokenizer processor w a Ha Hp)
      as [Hself Hcalls].
    split.
    + apply keeps_bind_at; [exact Hself |].
      intros locals. apply finish_keeps_self.
    + apply appends_from; [exact Hcalls |].
      intros locals. apply finish_appends. intros c Hc.
      destruct c; try discriminate Hc; reflexivity.
  - apply bind_raise. unfold vlm_outputs.
    rewrite (bind_ok _ _ w a w (self_analyzer_run _ w a Ha)).
    now rewrite Hp.
Qed.

(** *** The calls a run makes *)

Lemma backend_outputs_appends
    (P : Call VisionConfig Attentions AttentionData -> Prop)
    is_vlm (go : Output) (model : option Model') tokenizer processor :
  (forall c, is_insight_call c = false -> P c) ->
  appends (AnalyzerObj := AnalyzerObj) P
    (backend_outputs is_vlm go model tokenizer processor).
Proof.
  intros HP. unfold_estimator. cbv zeta.
  repeat first [ apply appends_log; apply HP; reflexivity | appends_step ].
Qed.

(** X4.  A run of [analyze_generation] asks the analyzer for the overall
    insight at most once, and as the last call it makes; when the run
    returns a result, the insight call was made, and it was made on exactly
    the step metrics the result holds. *)
Theorem insight_called_once_at_the_end
    (go : Output) (model : option Model') tokenizer processor prompt
    (w : World') :
  let run := analyze_generation go model tokenizer processor prompt w in
  exists l tail,
    calls (snd run) = calls w ++ l ++ tail
    /\ Forall (fun c => is_insight_call c = false) l
    /\ (tail = []
        \/ exists ms q t att,
             tail = [generate_overall_insight_call VisionConfig Attentions
                       ms q t att])
    /\ forall r, fst run = inr r ->
         exists t att,
           tail = [generate_overall_insight_call VisionConfig Attentions
                     (token_metrics r) (or_empty prompt) t att].
Proof.
  intros run. subst run. rewrite analyze_generation_unfold.
  destruct (backend_outputs_appends
              (fun c => is_insight_call c = false)
              (is_vlm_output go (self w)) go model tokenizer processor
              (fun c H => H) w) as [l [Hl HP]].
  unfold bind.
  destruct (backend_outputs (is_vlm_output go (self w)) go model tokenizer
              processor w)
    as [[e | [[all_metrics generated_text] attention_data]] w1];
    simpl in Hl.
  - exists l, []. simpl. rewrite app_nil_r.
    repeat split; try assumption; [now left | discriminate].
  - destruct (analyzer (self w1)) as [a |] eqn:Ha.
    + rewrite (finish_run (is_vlm_output go (self w)) (or_empty prompt)
                 all_metrics generated_text attention_data w1 a Ha).
      cbv zeta.
      exists l; eexists.
      split; [| split; [exact HP | split]].
      * destruct (generate_overall_insight a all_metrics (or_empty prompt)
                    generated_text _);
          simpl; rewrite Hl, <- app_assoc; reflexivity.
      * right. do 4 eexists. reflexivity.
      * intros r Hr.
        destruct (generate_overall_insight a all_metrics (or_empty prompt)
                    generated_text _); simpl in Hr; [discriminate |].
        injection Hr as <-. simpl. do 2 eexists. reflexivity.
    + exists l, []. rewrite app_nil_r.
      unfold finish, overall_insight_call, self_analyzer.
      destruct (is_vlm_output go (self w)); unfold bind, get; rewrite Ha;
        simpl; (repeat split; try assumption; [now left | discriminate]).
Qed.

(** X5.  On the batched-serving and the remote branch the model, the
    tokenizer and the processor play no part: the run is the one without
    them, and the tokenizer is never called. *)
Theorem batched_and_remote_ignore_tokenizer
    (go : Output) (model : option Model') tokenizer processor prompt
    (w : World') :
  is_vlm_output go (self w) = false ->
  outputs go <> None \/ opt_str_truthy (together_model (self w)) = true ->
  let run := analyze_generation go model tokenizer processor prompt w in
  run = analyze_generation go None None None prompt w
  /\ exists l,
       calls (snd run) = calls w ++ l
       /\ Forall (fun c => is_decode_call c = false) l.
Proof.
  intros Hvlm Hbranch run. subst run.
  rewrite !analyze_generation_unfold, Hvlm.
  assert (Hb : forall (mo : option Model') tok proc,
             backend_outputs false go mo tok proc w
             = (if is_some (outputs go) then vllm_outputs go
                else together_outputs go) w).
  { intros mo tok proc. unfold backend_outputs.
    destruct (outputs go) as [outs |] eqn:Hout; [reflexivity |].
    destruct Hbranch as [Hne | Hrem]; [contradiction |].
    simpl. unfold bind at 1, get. now rewrite Hrem. }
  split.
  - apply bind_cong_l. now rewrite !Hb.
  - apply (appends_from (fun c => is_decode_call c = false) _ _ w (calls w)).
    + rewrite Hb.
      destruct (is_some (outputs go));
        by_appends (fun c : Call VisionConfig Attentions AttentionData =>
                      is_decode_call c = false).
    + intros locals. apply finish_appends. intros c Hc.
      destruct c; try discriminate Hc; reflexivity.
Qed.

(** *** More on the dense-logits candidates *)


Lemma StronglySorted_app_cross {A} (R : A -> A -> Prop) (l1 l2 : list A) :
  StronglySorted R (l1 ++ l2) ->
  forall x y, In x l1 -> In y l2 -> R x y.
Proof.
  induction l1 as [| z l1 IH]; intros Hs x y Hx Hy; [contradiction |].
  simpl in Hs. inversion Hs as [| z' l' Hl Hz]; subst.
  destruct Hx as [-> | Hx].
  - apply (proj1 (Forall_forall _ _) Hz). apply in_or_app. now right.
  - now apply IH.
Qed.

Lemma NoDup_firstn {A} n (l : list A) : NoDup l -> NoDup (firstn n l).
Proof.
  intros H. rewrite <- (firstn_skipn n l) in H.
  now apply NoDup_app_remove_r in H.
Qed.

Lemma map_fst_combine_seq {A} (l : list A) s :
  map fst (combine (seq s (length l)) l) = seq s (length l).
Proof.
  revert s. induction l as [| x l IH]; intros s; simpl; [reflexivity |].
  now rewrite IH.
Qed.


Lemma combine_seq_In {A} (l : list A) : forall s i x,
  nth_error l i = Some x -> In (s + i, x) (combine (seq s (length l)) l).
Proof.
  induction l as [| y l IH]; intros s i x H; [now destruct i |].
  destruct i as [| i]; simpl in *.
  - injection H as ->. left. now rewrite Nat.add_0_r.
  - right. rewrite <- Nat.add_succ_comm. now apply IH.
Qed.











(** X7.  The candidates of [_process_logits] are the most probable tokens:
    their token ids are pairwise distinct, and a token that is not among
    them is at most as probable as each of them. *)
Theorem dense_candidates_are_the_most_probable
    (row : list R) (rest : Tensor) (t : Tokenizer) (w : World') :
  (0 <= top_k (self w) <= Z.of_nat (length row))%Z ->
  exists token_info w',
    _process_logits (row :: rest) (Some t) w = (inr token_info, w')
    /\ NoDup (map token_id token_info)
    /\ forall i p,
         nth_error (softmax_row row) i = Some p ->
         ~ In (Z.of_nat i) (map token_id token_info) ->
         Forall (fun c => (p <= probability c)%R) token_info.
Proof.
  intros Hk. rewrite (process_logits_run row rest t w Hk).
  eexists. eexists. split; [reflexivity |].
  set (s := sort_desc snd (combine (seq 0 (length row)) (softmax_row row))).
  set (n := Z.to_nat (top_k (self w))).
  assert (Hfst : Permutation (seq 0 (length row)) (map fst s)).
  { rewrite <- (softmax_row_length row).
    rewrite <- (map_fst_combine_seq (softmax_row row) 0).
    apply Permutation_map. rewrite softmax_row_length.
    apply sort_desc_perm. }
  split.
  - rewrite map_map. simpl.
    rewrite <- (map_map fst Z.of_nat).
    apply Finite.Injective_map_NoDup; [intros x y; apply Nat2Z.inj |].
    rewrite <- firstn_map. apply NoDup_firstn.
    apply (Permutation_NoDup Hfst), seq_NoDup.
  - intros i p Hnth Hout.
    apply Forall_map, Forall_forall. intros [j q] Hj. simpl.
    assert (Hin : In (i, p) s).
    { apply (Permutation_in _ (sort_desc_perm snd _)).
      rewrite <- (softmax_row_length row).
      exact (combine_seq_In (softmax_row row) 0 i p Hnth). }
    rewrite <- (firstn_skipn n s) in Hin.
    apply in_app_or in Hin as [Hin | Hin].
    + exfalso. apply Hout. rewrite map_map. simpl.
      apply in_map_iff. now exists (i, p).
    + pose proof (sort_desc_sorted (A := nat * R) snd
                    (combine (seq 0 (length row)) (softmax_row row))) as Hs.
      fold s in Hs. rewrite <- (firstn_skipn n s) in Hs.
      exact (StronglySorted_app_cross _ _ _ Hs (j, q) (i, p) Hj Hin).
Qed.


(** *** More on the remote branch *)

(** The loop over positions that all three arrays cover returns, whatever
    the arrays hold beyond them. *)
Lemma together_loop_prefix d n : forall start all_metrics (w : World'),
  start + n <= length (dict_tokens d) ->
  start + n <= length (dict_token_logprobs d) ->
  start + n <= length (dict_token_ids d) ->
  exists ms,
    for_each (together_step d) (seq start n) all_metrics w
    = (inr (all_metrics ++ ms), w)
    /\ length ms = n
    /\ forall i m, nth_error ms i = Some m ->
         exists tok tid lp,
           nth_error (dict_tokens d) (start + i) = Some tok
           /\ nth_error (dict_token_ids d) (start + i) = Some tid
           /\ nth_error (dict_token_logprobs d) (start + i) = Some lp
           /\ m = UncertaintyMetrics_init (1 - exp lp) 0
                    [{| token := tok; token_id := tid; logit := lp;
                        probability := exp lp |}].
Proof.
  induction n as [| n IH]; intros start all_metrics w Htok Hlps Hids.
  - exists []. simpl. rewrite app_nil_r. repeat split.
    intros i m H. now destruct i.
  - destruct (nth_error_in_range (dict_tokens d) start) as [tok Htok'];
      [lia |].
    destruct (nth_error_in_range (dict_token_ids d) start) as [tid Htid];
      [lia |].
    destruct (nth_error_in_range (dict_token_logprobs d) start) as [lp Hlp];
      [lia |].
    simpl seq. simpl for_each.
    rewrite (bind_ok _ _ _ _ _
               (together_step_run d start tok tid lp all_metrics w
                  Htok' Htid Hlp)).
    destruct (IH (S start)
                (all_metrics ++
                 [UncertaintyMetrics_init (1 - exp lp) 0
                    [{| token := tok; token_id := tid; logit := lp;
                        probability := exp lp |}]]) w)
      as [ms [Hrun [Hms Hnth]]]; [lia | lia | lia |].
    exists (UncertaintyMetrics_init (1 - exp lp) 0
              [{| token := tok; token_id := tid; logit := lp;
                  probability := exp lp |}] :: ms).
    split; [| split].
    + rewrite Hrun. now rewrite <- app_assoc.
    + simpl. now rewrite Hms.
    + intros i m Hm. destruct i as [| i].
      * simpl in Hm. injection Hm as <-. rewrite Nat.add_0_r.
        now exists tok, tid, lp.
      * simpl in Hm. replace (start + S i) with (S start + i) by lia.
        now apply Hnth.
Qed.



Lemma together_step_short d step all_metrics (w : World') :
  step < length (dict_tokens d) ->
  length (dict_token_logprobs d) <= step
  \/ length (dict_token_ids d) <= step ->
  together_step d step all_metrics w
  = (inl (IndexError "index out of range"), w).
Proof.
  intros Htok Hshort. unfold together_step, bind, lift, index.
  destruct (nth_error (dict_token_logprobs d) step) as [lp |] eqn:Elp;
    [| reflexivity].
  destruct (nth_error_in_range (dict_tokens d) step Htok) as [tok Etok].
  rewrite Etok.
  destruct (nth_error (dict_token_ids d) step) as [tid |] eqn:Eid;
    [| reflexivity].
  exfalso. destruct Hshort as [H | H].
  - apply nth_error_None in H. congruence.
  - apply nth_error_None in H. congruence.
Qed.

(** X10.  A remote response with fewer log-probabilities or fewer token
    ids than tokens makes [analyze_generation] raise an index error: no
    result is returned and no collaborator is called. *)
Theorem remote_arrays_must_cover_tokens
    (go : Output) (d : TogetherOutput) (model : option Model')
    tokenizer processor prompt (w : World') :
  is_vlm_output go (self w) = false ->
  outputs go = None ->
  opt_str_truthy (together_model (self w)) = true ->
  items go = Some d ->
  length (dict_token_logprobs d) < length (dict_tokens d)
  \/ length (dict_token_ids d) < length (dict_tokens d) ->
  analyze_generation go model tokenizer processor prompt w
  = (inl (IndexError "index out of range"), w).
Proof.
  intros Hvlm Hout Hrem Hitems Hshort.
  rewrite analyze_generation_unfold, Hvlm. apply bind_raise.
  rewrite backend_outputs_no_outputs by exact Hout. rewrite Hrem.
  unfold together_outputs. rewrite Hitems.
  unfold bind at 1. unfold ret at 1. apply bind_raise.
  set (j := Nat.min (length (dict_token_logprobs d))
              (length (dict_token_ids d))).
  assert (Hj : j < length (dict_tokens d)) by (unfold j; lia).
  replace (length (dict_tokens d))
    with (j + S (length (dict_tokens d) - S j)) by lia.
  rewrite seq_app, for_each_app.
  destruct (together_loop_prefix d j 0 [] w) as [ms [Hrun _]];
    [lia | unfold j; lia | unfold j; lia |].
  rewrite (bind_ok _ _ _ _ _ Hrun).
  simpl seq. simpl for_each. apply bind_raise.
  apply together_step_short; [exact Hj | unfold j; lia].
Qed.

(** *** More on the batched-serving branch *)







(** X13.  Of the candidate outputs of a batched-serving result only the
    first is analysed: the others do not change the run; without any
    output the run raises an index error before any call. *)
Theorem only_first_output_is_analysed
    (att : option Attentions) seqs sc its
    (out : CompletionOutput) (rest : list CompletionOutput)
    (model : option Model') tokenizer processor prompt (w : World') :
  let go := fun outs : list CompletionOutput =>
    {| attentions := att; sequences := seqs; scores := sc;
       outputs := Some outs; items := its |} in
  is_vlm_output (go (out :: rest)) (self w) = false ->
  analyze_generation (go (out :: rest)) model tokenizer processor prompt w
  = analyze_generation (go [out]) model tokenizer processor prompt w
  /\ analyze_generation (go []) model tokenizer processor prompt w
     = (inl (IndexError "index out of range"), w).
Proof.
  intros go Hvlm.
  assert (H1 : is_vlm_output (go [out]) (self w) = false) by exact Hvlm.
  assert (H0 : is_vlm_output (go []) (self w) = false) by exact Hvlm.
  rewrite !analyze_generation_unfold, Hvlm, H1, H0.
  split; [apply bind_cong_l; reflexivity | apply bind_raise; reflexivity].
Qed.

(** X14.  A batched-serving output without log-probabilities, or with an
    empty list of them, yields no step record; the insight is still asked
    for, on an empty list of metrics and the text of the first output. *)
Theorem missing_logprobs_give_no_metrics
    (go : Output) (out : CompletionOutput) (rest : list CompletionOutput)
    (model : option Model') tokenizer processor prompt (w : World') a :
  is_vlm_output go (self w) = false ->
  outputs go = Some (out :: rest) ->
  logprobs out = None \/ logprobs out = Some [] ->
  analyzer (self w) = Some a ->
  analyze_generation go model tokenizer processor prompt w
  = let w' :=
      log (generate_overall_insight_call VisionConfig Attentions []
             (or_empty prompt) (text out) None) w in
    match generate_overall_insight a [] (or_empty prompt) (text out) None
    with
    | inl e => (inl e, w')
    | inr o => (inr {| token_metrics := []; overall_insight := o |}, w')
    end.
Proof.
  intros Hvlm Hout Hlp Ha.
  rewrite analyze_generation_unfold, Hvlm.
  assert (Hb : backend_outputs false go model tokenizer processor w
               = (inr ([], text out, None), w)).
  { unfold backend_outputs, vllm_outputs. rewrite Hout.
    unfold getattr, bind, ret, lift, index. simpl.
    destruct Hlp as [-> | ->]; reflexivity. }
  rewrite (bind_ok _ _ _ _ _ Hb).
  exact (finish_run false (or_empty prompt) [] (text out) None w a Ha).
Qed.

(** X15.  On the batched-serving branch with an analyzer, the step
    records are those of the steps that have a candidate, in the order of
    the steps: each holds the candidates of its step and the two entropies
    the analyzer computes for them.  The estimator is unchanged, and the
    records are the [token_metrics] of the result when the insight call
    returns. *)
Theorem batched_branch_records
    (go : Output) (out : CompletionOutput) (rest : list CompletionOutput)
    (steps : list (list (Z * Logprob)))
    (model : option Model') tokenizer processor prompt (w : World') a :
  is_vlm_output go (self w) = false ->
  outputs go = Some (out :: rest) ->
  logprobs out = Some steps ->
  analyzer (self w) = Some a ->
  let ms :=
    map (fun token_info =>
           {| raw_entropy :=
                _calculate_raw_entropy a (map probability token_info);
              semantic_entropy := _calculate_semantic_entropy a token_info;
              token_predictions := token_info;
              insight := None |})
      (filter list_truthy (map (vllm_token_info (top_k (self w))) steps)) in
  exists w1,
    backend_outputs false go model tokenizer processor w
    = (inr (ms, text out, None), w1)
    /\ self w1 = self w
    /\ forall o,
         generate_overall_insight a ms (or_empty prompt) (text out) None
         = inr o ->
         fst (analyze_generation go model tokenizer processor prompt w)
         = inr {| token_metrics := ms; overall_insight := o |}.
Proof.
  intros Hvlm Hout Hlp Ha ms.
  destruct (vllm_branch_records go out rest steps w a Hout Hlp Ha)
    as [w1 [Hrun Hself]].
  assert (Hb : backend_outputs false go model tokenizer processor w
               = (inr (ms, text out, None), w1)).
  { unfold backend_outputs. rewrite Hout. exact Hrun. }
  exists w1. split; [exact Hb |]. split; [exact Hself |].
  intros o Ho.
  rewrite analyze_generation_unfold, Hvlm.
  rewrite (bind_ok _ _ _ _ _ Hb).
  assert (Ha1 : analyzer (self w1) = Some a) by (now rewrite Hself).
  rewrite (finish_run false _ _ _ None w1 a Ha1). simpl.
  now rewrite Ho.
Qed.

(** *** The records of the dense-logits and vision-language branches *)

Lemma logits_step_run (t : Tokenizer) (logits : Tensor) acc (w : World') a :
  analyzer (self w) = Some a ->
  within_vocabulary (top_k (self w)) logits ->
  exists m w',
    logits_step (Some t) logits acc w = (inr (acc ++ [m]), w')
    /\ self w' = self w
    /\ is_record_of (VisionConfig := VisionConfig) (Attentions := Attentions)
         (AttentionData := AttentionData) (self w) a t logits m.
Proof.
  intros Ha [row [rest [-> Hk]]].
  unfold logits_step.
  rewrite (bind_ok _ _ _ _ _ (process_logits_run row rest t w Hk)).
  match goal with
  | |- context [calculate_raw_entropy ?probs] =>
      set (ps := probs)
  end.
  match goal with
  | |- context [calculate_semantic_entropy ?ti] => set (token_info := ti)
  end.
  eexists (UncertaintyMetrics_init (_calculate_raw_entropy a ps)
             (_calculate_semantic_entropy a token_info) token_info).
  eexists. split; [| split].
  - unfold calculate_raw_entropy, calculate_semantic_entropy, self_analyzer,
      bind, get, modify, ret, log. simpl. rewrite Ha. simpl. rewrite Ha.
    reflexivity.
  - reflexivity.
  - unfold is_record_of. simpl token_predictions.
    split; [| repeat split].
    rewrite (process_logits_run row rest t {| self := self w; calls := [] |} Hk).
    reflexivity.
Qed.

Lemma logits_loop_run (t : Tokenizer) a (l : list Tensor) :
  forall acc (w : World'),
  analyzer (self w) = Some a ->
  Forall (within_vocabulary (top_k (self w))) l ->
  exists ms w',
    for_each (logits_step (Some t)) l acc w = (inr (acc ++ ms), w')
    /\ self w' = self w
    /\ Forall2 (is_record_of (VisionConfig := VisionConfig)
                  (Attentions := Attentions) (AttentionData := AttentionData)
                  (self w) a t) l ms.
Proof.
  induction l as [| logits l IH]; intros acc w Ha Hwf.
  - exists [], w. simpl. rewrite app_nil_r. repeat split. constructor.
  - inversion Hwf as [| ? ? Hx Hl]; subst.
    destruct (logits_step_run t logits acc w a Ha Hx)
      as [m [w1 [Hstep [Hself Hrec]]]].
    simpl for_each. rewrite (bind_ok _ _ _ _ _ Hstep).
    destruct (IH (acc ++ [m]) w1) as [ms [w' [Hrun [Hself' Hrecs]]]].
    + now rewrite Hself.
    + now rewrite Hself.
    + exists (m :: ms), w'. split; [| split].
      * rewrite Hrun. now rewrite <- app_assoc.
      * now rewrite Hself'.
      * constructor; [exact Hrec |]. now rewrite <- Hself.
Qed.

(** X16.  On the dense-logits branch, with tokenizer, processor and
    analyzer in place and [top_k] within the vocabulary of every captured
    tensor, the run builds one step record per captured tensor, in the
    order of capture; the generated text is the decoding of the first
    sequence; the estimator is unchanged; and these records are the
    [token_metrics] of the result when the insight call returns. *)
Theorem huggingface_one_record_per_captured_tensor
    (go : Output) (model : option Model') (t : Tokenizer) (p : Processor)
    prompt (w : World') a seq0 seqs :
  is_vlm_output go (self w) = false ->
  outputs go = None ->
  opt_str_truthy (together_model (self w)) = false ->
  sequences go = Some (seq0 :: seqs) ->
  analyzer (self w) = Some a ->
  Forall (within_vocabulary (top_k (self w))) (captured_logits p) ->
  exists ms w1,
    backend_outputs false go model (Some t) (Some p) w
    = (inr (ms, decode t seq0 true, None), w1)
    /\ self w1 = self w
    /\ Forall2 (is_record_of (VisionConfig := VisionConfig)
                  (Attentions := Attentions) (AttentionData := AttentionData)
                  (self w) a t) (captured_logits p) ms
    /\ forall o,
         generate_overall_insight a ms (or_empty prompt)
           (decode t seq0 true) None = inr o ->
         fst (analyze_generation go model (Some t) (Some p) prompt w)
         = inr {| token_metrics := ms; overall_insight := o |}.
Proof.
  intros Hvlm Hout Hrem Hseq Ha Hwf.
  set (w0 := log (decode_call VisionConfig Attentions AttentionData seq0 true)
               w).
  destruct (logits_loop_run t a (captured_logits p) [] w0 Ha Hwf)
    as [ms [w1 [Hrun [Hself Hrecs]]]].
  assert (Hb : backend_outputs false go model (Some t) (Some p) w
               = (inr (ms, decode t seq0 true, None), w1)).
  { rewrite backend_outputs_no_outputs by exact Hout. rewrite Hrem.
    unfold huggingface_outputs.
    change (negb (is_some (Some t)) || negb (is_some (Some p))) with false.
    cbv iota. rewrite Hseq.
    erewrite bind_ok; [| reflexivity]. cbv beta.
    erewrite bind_ok; [| reflexivity]. cbv beta.
    erewrite bind_ok; [| reflexivity]. cbv beta.
    erewrite bind_ok; [| reflexivity]. cbv beta.
    change (log (decode_call VisionConfig Attentions AttentionData seq0 true)
              w) with w0.
    rewrite (bind_ok _ _ _ _ _ Hrun). reflexivity. }
  exists ms, w1. split; [exact Hb |]. split; [exact Hself |].
  split; [exact Hrecs |].
  intros o Ho.
  rewrite analyze_generation_unfold, Hvlm.
  rewrite (bind_ok _ _ _ _ _ Hb).
  assert (Ha1 : analyzer (self w1) = Some a) by (now rewrite Hself).
  rewrite (finish_run false _ _ _ None w1 a Ha1). simpl.
  now rewrite Ho.
Qed.

Lemma skipn_S_cons {A} (l : list A) : forall s,
  s < length l -> exists x, skipn s l = x :: skipn (S s) l.
Proof.
  induction l as [| y l IH]; intros s Hs; [simpl in Hs; lia |].
  destruct s as [| s]; [now exists y |].
  simpl in Hs. destruct (IH s) as [x Hx]; [lia |].
  exists x. exact Hx.
Qed.

(** The loop that decodes the generated tokens one at a time keeps the
    texts that are not white space only, in order. *)
Lemma token_loop_run (t : Tokenizer) (gen : list Z) n :
  forall s tokens (w : World'),
  s + n <= length gen ->
  for_each
    (fun i tokens =>
       bind (tokenizer_decode (Some t) (firstn 1 (slice_from gen i)) true)
         (fun token_text =>
            ret (if strip_truthy token_text then tokens ++ [token_text]
                 else tokens)))
    (seq s n) tokens w
  = (inr (tokens ++
          filter strip_truthy
            (map (fun id => decode t [id] true) (firstn n (skipn s gen)))),
     {| self := self w;
        calls := calls w ++
                 map (fun id =>
                        decode_call VisionConfig Attentions AttentionData
                          [id] true) (firstn n (skipn s gen)) |}).
Proof.
  induction n as [| n IH]; intros s tokens w Hs.
  - simpl. rewrite !app_nil_r. now destruct w.
  - destruct (skipn_S_cons gen s) as [x Hx]; [lia |].
    assert (H1 : firstn 1 (slice_from gen s) = [x])
      by (unfold slice_from; now rewrite Hx).
    assert (H2 : firstn (S n) (skipn s gen) = x :: firstn n (skipn (S s) gen))
      by (now rewrite Hx).
    change (seq s (S n)) with (s :: seq (S s) n). cbn [for_each].
    erewrite bind_ok; [| rewrite H1; reflexivity].
    rewrite IH by lia.
    rewrite H2. cbn [map filter]. unfold log. cbn [self calls].
    destruct (strip_truthy (decode t [x] true));
      rewrite <- ?app_assoc; reflexivity.
Qed.

(** X17.  On the vision-language branch, with an initialised analyzer, a
    tokenizer and [top_k] within the vocabulary of every score tensor: the
    generated tokens are the first sequence from [input_length] on; the
    tokenizer decodes them at once for the generated text and then one at a
    time; the analyzer is asked for the attention maps with the per-token
    texts that are not white space only; and one step record is built per
    score tensor of the output.  The analyzer's payload goes to the insight
    call. *)
Theorem vision_language_branch_run
    (go : Output) (model : option Model') (t : Tokenizer)
    (processor : option Processor) prompt (w : World') a p att seq0 seqs :
  analyzer (self w) = Some a ->
  isinstance_VLMAnalyzer a = true ->
  patch_size a = Some p ->
  attentions go = Some att ->
  sequences go = Some (seq0 :: seqs) ->
  Forall (within_vocabulary (top_k (self w)))
    (match scores go with Some sc => sc | None => [] end) ->
  let gen := slice_from seq0 (input_length_of processor) in
  let tokens := filter strip_truthy (map (fun id => decode t [id] true) gen) in
  let payload := process_attention_maps a att tokens in
  exists ms w1,
    backend_outputs (is_vlm_output go (self w)) go model (Some t) processor w
    = (inr (ms, decode t gen true, Some payload), w1)
    /\ self w1 = self w
    /\ (exists l,
           calls w1
           = calls w
             ++ (decode_call VisionConfig Attentions AttentionData gen true
                 :: map (fun id =>
                           decode_call VisionConfig Attentions AttentionData
                             [id] true) gen
                 ++ [process_attention_maps_call VisionConfig AttentionData
                       att tokens])
             ++ l)
    /\ Forall2 (is_record_of (VisionConfig := VisionConfig)
                  (Attentions := Attentions) (AttentionData := AttentionData)
                  (self w) a t)
         (match scores go with Some sc => sc | None => [] end) ms
    /\ forall o,
         generate_overall_insight a ms (or_empty prompt) (decode t gen true)
           (Some payload) = inr o ->
         fst (analyze_generation go model (Some t) processor prompt w)
         = inr {| token_metrics := ms; overall_insight := o |}.
Proof.
  intros Ha Hisvlm Hp Hatt Hseq Hwf gen tokens payload.
  assert (Hvlm : is_vlm_output go (self w) = true).
  { unfold is_vlm_output. now rewrite Hatt, Ha, Hisvlm. }
  rewrite Hvlm.
  set (w2 := {| self := self w;
                calls := (calls w
                          ++ [decode_call VisionConfig Attentions
                                AttentionData gen true])
                         ++ map (fun id =>
                                   decode_call VisionConfig Attentions
                                     AttentionData [id] true) gen |}
             : World').
  set (w3 := log (process_attention_maps_call VisionConfig AttentionData
                    att tokens) w2).
  assert (Hloop : exists ms w1,
             (match scores go with
              | Some sc => for_each (logits_step (Some t)) sc []
              | None => ret []
              end) w3 = (inr ms, w1)
             /\ self w1 = self w
             /\ (exists l, calls w1 = calls w3 ++ l)
             /\ Forall2 (is_record_of (VisionConfig := VisionConfig)
                           (Attentions := Attentions)
                           (AttentionData := AttentionData) (self w) a t)
                  (match scores go with Some sc => sc | None => [] end) ms).
  { destruct (scores go) as [sc |].
    - destruct (logits_loop_run t a sc [] w3 Ha Hwf)
        as [ms [w1 [Hrun [Hself Hrecs]]]].
      exists ms, w1. split; [exact Hrun |]. split; [exact Hself |].
      split; [| exact Hrecs].
      assert (K : appends (AnalyzerObj := AnalyzerObj) (fun _ => True)
                    (for_each (logits_step (Some t)) sc [])).
      { unfold_estimator.
        repeat first [ apply appends_log; exact I | appends_step ]. }
      destruct (K w3) as [l [Hl _]]. rewrite Hrun in Hl. now exists l.
    - exists [], w3. repeat split; [| constructor].
      exists []. now rewrite app_nil_r. }
  destruct Hloop as [ms [w1 [Hrun [Hself [[l Hl] Hrecs]]]]].
  assert (Hb : backend_outputs true go model (Some t) processor w
               = (inr (ms, decode t gen true, Some payload), w1)).
  { unfold backend_outputs, vlm_outputs.
    rewrite (bind_ok _ _ w a w (self_analyzer_run _ w a Ha)).
    rewrite Hp.
    erewrite bind_ok; [| reflexivity]. cbv beta zeta.
    rewrite Hseq, Hatt.
    erewrite bind_ok; [| reflexivity]. cbv beta.
    erewrite bind_ok; [| reflexivity]. cbv beta.
    erewrite bind_ok; [| reflexivity]. cbv beta.
    fold gen.
    rewrite (bind_ok _ _ _ _ _
               (token_loop_run t gen (length gen) 0 []
                  (log (decode_call VisionConfig Attentions AttentionData
                          gen true) w) (Nat.le_refl _))).
    rewrite skipn_O, firstn_all. simpl app. fold tokens.
    change {| self := self (log (decode_call VisionConfig Attentions
                                   AttentionData gen true) w);
              calls := calls (log (decode_call VisionConfig Attentions
                                     AttentionData gen true) w)
                       ++ map (fun id =>
                                 decode_call VisionConfig Attentions
                                   AttentionData [id] true) gen |}
      with w2.
    rewrite (bind_ok _ _ w2 a w2 (self_analyzer_run _ w2 a Ha)).
    erewrite bind_ok; [| reflexivity]. cbv beta.
    erewrite bind_ok; [| reflexivity]. cbv beta.
    change (log (process_attention_maps_call VisionConfig AttentionData att
                   tokens) w2) with w3.
    rewrite (bind_ok _ _ _ _ _ Hrun). reflexivity. }
  exists ms, w1. split; [exact Hb |]. split; [exact Hself |].
  split; [| split; [exact Hrecs |]].
  - exists l. rewrite Hl. unfold w3, w2, log. simpl.
    now rewrite <- !app_assoc.
  - intros o Ho.
    rewrite analyze_generation_unfold, Hvlm.
    rewrite (bind_ok _ _ _ _ _ Hb).
    assert (Ha1 : analyzer (self w1) = Some a) by (now rewrite Hself).
    rewrite (finish_run true _ _ _ (Some payload) w1 a Ha1). simpl.
    now rewrite Ho.
Qed.

(** *** Generation through the remote API *)

Section GenerateFacts.
Variable create : Together -> ChatRequest -> exn + ChatResponse.

(** The request [_generate_with_together] sends. *)
Lemma generate_with_together_run prompt kwargs (w : World') c :
  together_client (self w) = Some c ->
  _generate_with_together create prompt kwargs w
  = bind
      (lift (create c
               {| request_model := together_model (self w);
                  messages := [{| role := "user"; content := prompt |}];
                  max_tokens := get_default (max_new_tokens kwargs) 10%Z;
                  temperature :=
                    get_default (kwargs_temperature kwargs) (7 / 10)%R;
                  request_logprobs := true;
                  stream := false |}))
      (fun response =>
         bind (lift (index (choices response) 0))
           (fun choice0 =>
              match choice_logprobs choice0 with
              | Some data =>
                  ret {| dict_text := message_content choice0;
                         dict_tokens := tokens data;
                         dict_token_logprobs := token_logprobs data;
                         dict_token_ids := token_ids data |}
              | None =>
                  raise (AttributeError
                           "'NoneType' object has no attribute 'tokens'")
              end)) w.
Proof.
  intros Hc. unfold _generate_with_together.
  unfold bind at 1. unfold get at 1.
  unfold bind at 1. now rewrite Hc.
Qed.

(** X19.  The remote pipeline end to end: when the API answers the request
    with a first choice that carries one log-probability and one token id
    per token, [_generate_with_together] returns the mapping without
    touching the estimator, and [analyze_generation] on that mapping, by
    the same estimator with its remote model id, yields one step record per
    token of the response. *)
Theorem remote_generation_then_analysis
    prompt kwargs (w : World') c response ch chs data :
  together_client (self w) = Some c ->
  opt_str_truthy (together_model (self w)) = true ->
  create c
    {| request_model := together_model (self w);
       messages := [{| role := "user"; content := prompt |}];
       max_tokens := get_default (max_new_tokens kwargs) 10%Z;
       temperature := get_default (kwargs_temperature kwargs) (7 / 10)%R;
       request_logprobs := true;
       stream := false |}
  = inr response ->
  choices response = ch :: chs ->
  choice_logprobs ch = Some data ->
  length (token_logprobs data) = length (tokens data) ->
  length (token_ids data) = length (tokens data) ->
  exists d ms,
    _generate_with_together create prompt kwargs w = (inr d, w)
    /\ dict_text d = message_content ch
    /\ length ms = length (tokens data)
    /\ forall a o (model : option Model') tokenizer processor query,
         analyzer (self w) = Some a ->
         generate_overall_insight a ms (or_empty query) (message_content ch)
           None = inr o ->
         fst (analyze_generation (dict_output d) model tokenizer processor
                query w)
         = inr {| token_metrics := ms; overall_insight := o |}.
Proof.
  intros Hc Hrem Hcreate Hch Hdata Hlps Hids.
  set (d := {| dict_text := message_content ch;
               dict_tokens := tokens data;
               dict_token_logprobs := token_logprobs data;
               dict_token_ids := token_ids data |}).
  destruct (together_loop_prefix d (length (dict_tokens d)) 0 [] w)
    as [ms [Hrun [Hlen _]]]; simpl; try lia.
  exists d, ms. split; [| split; [reflexivity | split; [exact Hlen |]]].
  - rewrite (generate_with_together_run prompt kwargs w c Hc).
    unfold bind at 1. unfold lift at 1. rewrite Hcreate.
    unfold bind at 1. unfold lift at 1, index. rewrite Hch. simpl nth_error.
    cbv iota. now rewrite Hdata.
  - intros a o model tokenizer processor query Ha Ho.
    assert (Hvlm : is_vlm_output (dict_output d) (self w) = false)
      by reflexivity.
    assert (Hb : backend_outputs false (dict_output d) model tokenizer
                   processor w
                 = (inr (ms, message_content ch, None), w)).
    { rewrite backend_outputs_no_outputs by reflexivity. rewrite Hrem.
      unfold together_outputs. simpl items.
      unfold bind at 1. unfold ret at 1.
      now rewrite (bind_ok _ _ _ _ _ Hrun). }
    rewrite analyze_generation_unfold, Hvlm.
    rewrite (bind_ok _ _ _ _ _ Hb).
    rewrite (finish_run false _ _ _ None w a Ha). simpl.
    now rewrite Ho.
Qed.

(** X20.  How [_generate_with_together] fails: an estimator constructed
    without API key has no client and raises before any request; an error
    of the API is raised as it is; a response without choices is an index
    error, and a first choice without log-probabilities an attribute
    error.  In no case is the estimator changed. *)
Theorem remote_generation_failures
    prompt kwargs (w : World') :
  (forall k (a : option AnalyzerObj) key model calls0,
      opt_str_truthy key = false ->
      _generate_with_together create prompt kwargs
        ({| self := UncertaintyEstimator_init k a key model;
            calls := calls0 |} : World')
      = (inl (AttributeError "'NoneType' object has no attribute 'chat'"),
         {| self := UncertaintyEstimator_init k a key model;
            calls := calls0 |}))
  /\ (forall c,
         together_client (self w) = Some c ->
         let request :=
           {| request_model := together_model (self w);
              messages := [{| role := "user"; content := prompt |}];
              max_tokens := get_default (max_new_tokens kwargs) 10%Z;
              temperature :=
                get_default (kwargs_temperature kwargs) (7 / 10)%R;
              request_logprobs := true;
              stream := false |} in
         (forall e, create c request = inl e ->
                    _generate_with_together create prompt kwargs w
                    = (inl e, w))
         /\ (create c request = inr {| choices := [] |} ->
             _generate_with_together create prompt kwargs w
             = (inl (IndexError "index out of range"), w))
         /\ (forall text chs,
                create c request
                = inr {| choices :=
                           {| message_content := text;
                              choice_logprobs := None |} :: chs |} ->
                _generate_with_together create prompt kwargs w
                = (inl (AttributeError
                          "'NoneType' object has no attribute 'tokens'"),
                   w))).
Proof.
  split.
  - intros k a key model calls0 Hkey.
    unfold _generate_with_together, bind, get. simpl. now rewrite Hkey.
  - intros c Hc request. subst request.
    rewrite (generate_with_together_run prompt kwargs w c Hc).
    repeat split.
    + intros e He. unfold bind at 1. unfold lift at 1. now rewrite He.
    + intros He. unfold bind at 1. unfold lift at 1. now rewrite He.
    + intros text chs He. unfold bind at 1. unfold lift at 1.
      now rewrite He.
Qed.

End GenerateFacts.

End EstimatorFacts.

(** ** The capturing logits processor *)

(** C10.  A call of the capturing processor returns the very tensor it was
    given; every tensor that existed before the call, the scores among
    them, holds what it held; the only change is one new tensor, a copy of
    the scores, appended to the captured list.  The copy is another object
    than the scores, so a later in-place update of the scores does not
    reach it, and the distribution read off the returned tensor is the one
    read off the scores before the call. *)
Theorem capture_is_identity_on_scores
    (input_ids : list (list Z)) (scores : Ref) (w : ProcWorld) :
  scores < next (heap w) ->
  exists w',
    __call__ input_ids scores w = (inr scores, w')
    /\ (forall r, r < next (heap w) ->
                  deref (heap w') r = deref (heap w) r)
    /\ captured (this w') = captured (this w) ++ [next (heap w)]
    /\ next (heap w') = S (next (heap w))
    /\ deref (heap w') (next (heap w)) = deref (heap w) scores
    /\ next (heap w) <> scores
    /\ (forall t, deref (store (heap w') scores t) (next (heap w))
                  = deref (heap w) scores)
    /\ softmax (deref (heap w') scores) = softmax (deref (heap w) scores).
Proof.
  intros Hvalid.
  assert (Hne : Nat.eqb (next (heap w)) scores = false)
    by (apply Nat.eqb_neq; lia).
  assert (Hne' : Nat.eqb scores (next (heap w)) = false)
    by (apply Nat.eqb_neq; lia).
  eexists. split; [reflexivity |].
  unfold deref, store. simpl.
  repeat split.
  - intros r Hr.
    destruct (Nat.eqb r (next (heap w))) eqn:E; [| reflexivity].
    apply Nat.eqb_eq in E. lia.
  - now rewrite Nat.eqb_refl.
  - lia.
  - intros t. now rewrite Hne, Nat.eqb_refl.
  - now rewrite Hne'.
Qed.

(** What the processor captured is what [analyze_generation] later reads:
    after a call, the captured tensors are those captured before, followed
    by the scores of this call. *)
Lemma captured_after_call (input_ids : list (list Z)) (scores : Ref)
    (w : ProcWorld) :
  Forall (fun r => r < next (heap w)) (captured (this w)) ->
  captured_logits (processor_of (snd (__call__ input_ids scores w)))
  = captured_logits (processor_of w) ++ [deref (heap w) scores].
Proof.
  intros Hold. unfold processor_of, deref. simpl.
  rewrite map_app. simpl. rewrite Nat.eqb_refl. f_equal.
  apply map_ext_in. intros r Hr.
  apply (proj1 (Forall_forall _ _) Hold) in Hr.
  destruct (Nat.eqb r (next (heap w))) eqn:E; [| reflexivity].
  apply Nat.eqb_eq in E. lia.
Qed.

(** X18.  The tensors a processor has captured are its own: a call keeps
    the captured references valid and pairwise distinct, adds the scores of
    the call at the end of what [analyze_generation] will read, and no
    in-place update of a tensor that is not a captured one changes what
    was captured. *)
Theorem captured_tensors_are_isolated
    (input_ids : list (list Z)) (scores : Ref) (w : ProcWorld) :
  Forall (fun r => r < next (heap w)) (captured (this w)) ->
  NoDup (captured (this w)) ->
  let w1 := snd (__call__ input_ids scores w) in
  Forall (fun r => r < next (heap w1)) (captured (this w1))
  /\ NoDup (captured (this w1))
  /\ captured_logits (processor_of w1)
     = captured_logits (processor_of w) ++ [deref (heap w) scores]
  /\ forall r t,
       ~ In r (captured (this w1)) ->
       captured_logits
         (processor_of {| heap := store (heap w1) r t; this := this w1 |})
       = captured_logits (processor_of w1).
Proof.
  intros Hvalid Hnodup w1.
  split; [| split; [| split]].
  - subst w1. simpl. apply Forall_app. split.
    + eapply Forall_impl; [| exact Hvalid]. intros r Hr. simpl in Hr. lia.
    + constructor; [lia | constructor].
  - subst w1. simpl.
    apply NoDup_app; [exact Hnodup | repeat constructor; intros [] | ].
    intros r Hr [<- | []].
    apply (proj1 (Forall_forall _ _) Hvalid) in Hr. lia.
  - apply captured_after_call. exact Hvalid.
  - intros r t Hout. unfold processor_of, deref, store. simpl.
    apply map_ext_in. intros r' Hr'.
    destruct (Nat.eqb r' r) eqn:E; [| reflexivity].
    apply Nat.eqb_eq in E. subst r'. contradiction.
Qed.

(** ** The benchmark's answer extraction *)

Local Open Scope string_scope.

Lemma prefix_app (s t : string) : prefix s (s ++ t) = true.
Proof.
  induction s as [| c s IH]; simpl; [now destruct t |].
  destruct (ascii_dec c c) as [_ | H]; [exact IH | now elim H].
Qed.

Lemma prefix_true_app (sub s : string) :
  prefix sub s = true -> exists rest, s = sub ++ rest.
Proof.
  revert s. induction sub as [| c sub IH]; intros s H.
  - now exists s.
  - destruct s as [| c' s]; [discriminate |]. simpl in H.
    destruct (ascii_dec c c') as [<- | _]; [| discriminate].
    destruct (IH s H) as [rest ->]. now exists rest.
Qed.

Lemma str_drop_app (a b : string) : str_drop (String.length a) (a ++ b) = b.
Proof. induction a as [| c a IH]; simpl; [now destruct b | exact IH]. Qed.

Lemma substring_app_skip (a b : string) n :
  substring (String.length a) n (a ++ b) = substring 0 n b.
Proof. induction a as [| c a IH]; simpl; [reflexivity | exact IH]. Qed.

Lemma substring_app_take (a b : string) :
  substring 0 (String.length a) (a ++ b) = a.
Proof.
  induction a as [| c a IH]; simpl; [now destruct b | now rewrite IH].
Qed.

Lemma append_assoc (a b c : string) : (a ++ b) ++ c = a ++ b ++ c.
Proof. induction a as [| x a IH]; simpl; [reflexivity | now rewrite IH]. Qed.

Lemma length_append (a b : string) :
  String.length (a ++ b) = String.length a + String.length b.
Proof. induction a as [| x a IH]; simpl; [reflexivity | now rewrite IH]. Qed.

(** An occurrence found in a suffix is found, shifted, in the whole. *)
Lemma str_rfind_app (sub pre t : string) i :
  str_rfind sub t = Some i ->
  str_rfind sub (pre ++ t) = Some (String.length pre + i).
Proof.
  intros H. induction pre as [| c pre IH]; simpl; [exact H |].
  now rewrite IH.
Qed.

Lemma str_rfind_none_tail (sub : string) c s :
  str_rfind sub (String c s) = None -> str_rfind sub s = None.
Proof. simpl. now destruct (str_rfind sub s). Qed.

Lemma str_rfind_none_drop (sub s : string) k :
  str_rfind sub s = None -> str_rfind sub (str_drop k s) = None.
Proof.
  revert s. induction k as [| k IH]; intros s H; [exact H |].
  destruct s as [| c s]; [exact H |]. simpl.
  apply IH. now apply str_rfind_none_tail in H.
Qed.

(** The search for one character. *)
Lemma str_find_char_cons (c x : ascii) (s : string) :
  str_find (String c "") (String x s)
  = if ascii_dec c x then Some 0
    else option_map S (str_find (String c "") s).
Proof.
  simpl. destruct (ascii_dec c x); [now destruct s | reflexivity].
Qed.

Lemma str_find_char_app (c : ascii) (a t : string) :
  str_find (String c "") a = None ->
  str_find (String c "") (a ++ String c t) = Some (String.length a).
Proof.
  induction a as [| x a IH]; intros H.
  - simpl. destruct (ascii_dec c c) as [_ | Hne]; [now destruct t | now elim Hne].
  - rewrite str_find_char_cons in H.
    change (String x a ++ String c t) with (String x (a ++ String c t)).
    rewrite str_find_char_cons.
    destruct (ascii_dec c x); [discriminate |].
    destruct (str_find (String c "") a); [discriminate |].
    now rewrite IH.
Qed.

Lemma str_find_char_some (c : ascii) (s : string) i :
  str_find (String c "") s = Some i ->
  exists a t,
    s = a ++ String c t /\ String.length a = i
    /\ str_find (String c "") a = None.
Proof.
  revert i. induction s as [| x s IH]; intros i H; [discriminate |].
  rewrite str_find_char_cons in H.
  destruct (ascii_dec c x) as [<- | Hne].
  - injection H as <-. now exists "", s.
  - destruct (str_find (String c "") s) as [j |] eqn:E; [| discriminate].
    injection H as <-.
    destruct (IH j eq_refl) as [a [t [-> [Hlen Hnone]]]].
    exists (String x a), t. repeat split; [simpl; now rewrite Hlen |].
    rewrite str_find_char_cons.
    destruct (ascii_dec c x); [contradiction | now rewrite Hnone].
Qed.

(** Where the pattern of [extract_answer] is found last. *)
Lemma str_rfind_boxed_head (rest : string) :
  str_rfind "boxed{" rest = None ->
  str_rfind "boxed{" ("boxed{" ++ rest) = Some 0.
Proof.
  intros H. cbn [append str_rfind]. rewrite H.
  destruct rest; reflexivity.
Qed.

Lemma str_find_brace_boxed (rest : string) :
  str_find "}" ("boxed{" ++ rest)
  = option_map (fun i => 6 + i) (str_find "}" rest).
Proof.
  cbn [append]. rewrite !str_find_char_cons.
  repeat match goal with
         | |- context [ascii_dec ?a ?b] =>
             destruct (ascii_dec a b); [discriminate |]
         end.
  now destruct (str_find "}" rest).
Qed.

Lemma extract_answer_at (pre rest : string) :
  str_rfind "boxed{" rest = None ->
  extract_answer (pre ++ "boxed{" ++ rest)
  = match str_find "}" rest with
    | Some i => substring 0 i rest
    | None => ""
    end.
Proof.
  intros Hlast. unfold extract_answer.
  rewrite (str_rfind_app "boxed{" pre _ 0 (str_rfind_boxed_head rest Hlast)).
  rewrite Nat.add_0_r, str_drop_app, str_find_brace_boxed.
  destruct (str_find "}" rest) as [i |]; [| reflexivity].
  cbn [option_map]. unfold str_slice.
  replace (String.length pre + (6 + i)
           - (String.length pre + String.length "boxed{")) with i
    by (simpl; lia).
  rewrite <- (length_append pre "boxed{"), <- append_assoc.
  apply substring_app_skip.
Qed.

(** X21.  [extract_answer] recovers an answer written as [boxed{...}]: for
    a text that ends a last [boxed{] with the answer and a closing brace,
    the answer holding no closing brace itself, the result is the answer,
    whatever comes before and after. *)
Theorem extract_answer_round_trip (pre ans post : string) :
  str_find "}" ans = None ->
  str_rfind "boxed{" (ans ++ "}" ++ post) = None ->
  extract_answer (pre ++ "boxed{" ++ ans ++ "}" ++ post) = ans.
Proof.
  intros Hans Hlast.
  rewrite (extract_answer_at pre _ Hlast).
  change ("}" ++ post) with (String "}"%char post).
  rewrite (str_find_char_app _ ans post Hans).
  apply substring_app_take.
Qed.

Lemma str_rfind_cons (sub : string) c s :
  str_rfind sub (String c s)
  = match str_rfind sub s with
    | Some i => Some (S i)
    | None => if prefix sub (String c s) then Some 0 else None
    end.
Proof. reflexivity. Qed.

Lemma str_rfind_some (sub s : string) i :
  sub <> "" ->
  str_rfind sub s = Some i ->
  exists pre rest,
    s = pre ++ sub ++ rest /\ String.length pre = i
    /\ str_rfind sub rest = None.
Proof.
  intros Hsub. revert i. induction s as [| c s IH]; intros i H.
  - simpl in H. destruct sub; [contradiction | discriminate].
  - rewrite str_rfind_cons in H.
    destruct (str_rfind sub s) as [j |] eqn:E.
    + injection H as <-.
      destruct (IH j eq_refl) as [pre [rest [-> [Hlen Hnone]]]].
      exists (String c pre), rest. repeat split; [simpl; now rewrite Hlen |].
      exact Hnone.
    + destruct (prefix sub (String c s)) eqn:Hp; [| discriminate].
      injection H as <-.
      destruct (prefix_true_app _ _ Hp) as [rest Hrest].
      exists "", rest. repeat split; [exact Hrest |].
      destruct sub as [| x sub]; [contradiction |].
      simpl in Hrest. injection Hrest as _ ->.
      rewrite <- (str_drop_app sub rest).
      now apply str_rfind_none_drop.
Qed.

(** X22.  What [extract_answer] returns, for every text: either the text
    has a last [boxed{] followed by a closing brace, and the result is what
    stands between the two, free of closing braces; or the result is empty,
    because the text has no [boxed{] or no closing brace after the last
    one. *)
Theorem extract_answer_between (text : string) :
  (exists pre ans post,
      text = pre ++ "boxed{" ++ ans ++ "}" ++ post
      /\ str_rfind "boxed{" (ans ++ "}" ++ post) = None
      /\ str_find "}" ans = None
      /\ extract_answer text = ans)
  \/ (extract_answer text = ""
      /\ (str_rfind "boxed{" text = None
          \/ exists pre rest,
               text = pre ++ "boxed{" ++ rest
               /\ str_rfind "boxed{" rest = None
               /\ str_find "}" rest = None)).
Proof.
  destruct (str_rfind "boxed{" text) as [i |] eqn:E.
  - destruct (str_rfind_some "boxed{" text i ltac:(discriminate) E)
      as [pre [rest [-> [_ Hlast]]]].
    pose proof (extract_answer_at pre rest Hlast) as Hex.
    destruct (str_find "}" rest) as [j |] eqn:Ej.
    + left.
      destruct (str_find_char_some _ rest j Ej) as [ans [post [-> [<- Hans]]]].
      exists pre, ans, post. repeat split; try assumption.
      rewrite Hex. apply substring_app_take.
    + right. split; [exact Hex |]. right. now exists pre, rest.
  - right. split; [| now left].
    unfold extract_answer. now rewrite E.
Qed.

(** ** The benchmark's accuracy *)

Local Close Scope string_scope.

Section AccuracyFacts.
Variable float : Type.
Variable float_of_string : string -> exn + float.
Variable float_eqb : float -> float -> bool.



(** X24.  A prediction that is no number is never correct: when no
    prediction converts, the accuracy is 0, whatever the ground truths are,
    also when each prediction is its ground truth letter for letter. *)
Theorem unparseable_predictions_score_nothing
    (predictions ground_truths : list string) :
  length predictions = length ground_truths ->
  Forall (fun p => exists msg, float_of_string p = inl (ValueError msg))
    predictions ->
  exists acc,
    compute_math_accuracy float_of_string float_eqb predictions ground_truths
    = inr acc
    /\ acc = 0%R.
Proof.
  intros Hlen Hbad. unfold compute_math_accuracy.
  rewrite Hlen, Nat.eqb_refl. simpl negb. cbv iota. rewrite <- Hlen.
  destruct (length predictions =? 0)%nat; [now exists 0%R |].
  assert (Hloop : forall gts correct,
             accuracy_loop float_of_string float_eqb
               (combine predictions gts) correct = inr correct).
  { clear Hlen. induction Hbad as [| p ps [msg Hp] _ IH]; intros gts correct.
    - reflexivity.
    - destruct gts as [| g gts]; [reflexivity |].
      simpl. rewrite Hp. simpl. apply IH. }
  rewrite Hloop. eexists. split; [reflexivity |].
  simpl. unfold Rdiv. lra.
Qed.

End AccuracyFacts.

(** ** The sample inputs *)

(** C7.  On a vision-language generation the analyzer computes an
    attention payload and the estimator passes it to the insight call, but
    the result that [analyze_generation] returns has the two declared
    fields only: the payload handed to the constructor is dropped, and the
    result has no [attention_data] attribute. *)
Theorem vlm_result_has_no_attention_data :
  let run :=
    analyze_generation vlm_output None (Some sample_tokenizer)
      (Some sample_processor) (Some "How many engines?"%string)
      (fresh (local_estimator 100 vlm_analyzer)) in
  fst run
  = inr {| token_metrics := [];
           overall_insight := Some "looks at the wing"%string |}
  /\ calls (snd run)
     = [decode_call _ _ _ [3%Z] true;
        decode_call _ _ _ [3%Z] true;
        process_attention_maps_call _ _ [[(1/4)%R; (3/4)%R]] ["wing"%string];
        generate_overall_insight_call _ _ [] "How many engines?" "wing"
          (Some [("wing"%string, [(1/4)%R; (3/4)%R])])]
  /\ result_hasattr "attention_data" = false
  /\ UncertaintyAnalysisResult_fields
     = ["token_metrics"; "overall_insight"]%string.
Proof.
  repeat split.
Qed.

(** The remote model id caps a requested [top_k] of 100 at 5. *)
Lemma top_k_capped_witness :
  top_k (remote_estimator text_analyzer) = 5%Z.
Proof.
  apply (proj1 (top_k_capped_at_construction (AC := sample_class) 100
                  (Some text_analyzer) (Some "key"%string))).
  discriminate.
Defined.

(** A remote response analysed by an estimator with a remote model id
    takes the remote branch. *)
Lemma backend_priority_witness :
  analyze_generation remote_output None None None None
    (fresh (remote_estimator text_analyzer))
  = bind (together_outputs remote_output) (finish false ""%string)
      (fresh (remote_estimator text_analyzer)).
Proof.
  apply (proj1 (proj2 (proj2
           (backend_priority remote_output None None None None
              (fresh (remote_estimator text_analyzer)))))).
  - intros [Hatt _]. now apply Hatt.
  - reflexivity.
  - reflexivity.
Defined.

(** The two-token response yields two records, each with one candidate,
    and they are returned. *)
Lemma remote_steps_witness :
  exists ms : list UncertaintyMetrics,
    length ms = 2
    /\ nth_error ms 1
       = Some {| raw_entropy := 1 - exp (-23/10);
                 semantic_entropy := 0;
                 token_predictions :=
                   [{| token := " there"; token_id := 1070;
                       logit := (-23/10)%R;
                       probability := exp (-23/10) |}];
                 insight := None |}
    /\ fst (analyze_generation remote_output None None None None
              (fresh (remote_estimator text_analyzer)))
       = inr {| token_metrics := ms;
                overall_insight := Some "steady"%string |}.
Proof.
  destruct (remote_steps_one_candidate_each remote_output remote_response
              None None None None (fresh (remote_estimator text_analyzer))
              eq_refl eq_refl eq_refl eq_refl eq_refl eq_refl)
    as [ms [Hlen [Hnth [_ Hrun]]]].
  exists ms. split; [exact Hlen |]. split.
  - apply (Hnth 1%nat); reflexivity.
  - apply (Hrun text_analyzer); reflexivity.
Defined.

(** Cutting the three-entry step at [top_k = 2] leaves two candidates. *)
Lemma vllm_candidates_witness :
  length (vllm_token_info 2 tied_step) = 2
  /\ StronglySorted (key_ge logit) (vllm_token_info 2 tied_step).
Proof.
  pose proof (vllm_candidates_sorted_stable_cut 2 tied_step
                ltac:(discriminate)) as H.
  cbv zeta in H.
  destruct H as [_ [Hsorted [_ [Hlen _]]]].
  split; [exact Hlen | exact Hsorted].
Defined.

(** The step with no entry leaves the analysis as it is without it. *)
Lemma empty_vllm_step_witness :
  analyze_generation (vllm_output_of [[]; one_entry_step]) None None None
    None (fresh (local_estimator 5 text_analyzer))
  = analyze_generation (vllm_output_of [one_entry_step]) None None None
      None (fresh (local_estimator 5 text_analyzer)).
Proof.
  apply (empty_vllm_step_leaves_no_record (AC := sample_class)
           None None None "yes"%string [] None [] [one_entry_step]
           None None None None (fresh (local_estimator 5 text_analyzer))).
  reflexivity.
Defined.

(** C5, against the claim: of two steps, the first without entries, only
    the second leaves a record; no record with an empty candidate list is
    emitted for the first. *)
Lemma empty_vllm_step_counterexample :
  match
    fst (analyze_generation (vllm_output_of [[]; one_entry_step]) None None
           None None (fresh (local_estimator 5 text_analyzer)))
  with
  | inr r =>
      map (fun m => length (token_predictions m)) (token_metrics r) = [1]
  | inl _ => False
  end.
Proof. reflexivity. Qed.

(** C6, against the claim: the insight backend times out, and the
    exception leaves [analyze_generation] although both step records had
    been computed. *)
Lemma insight_failure_counterexample :
  fst (analyze_generation remote_output None None None None
         (fresh (remote_estimator failing_analyzer)))
  = inl (TimeoutError "timeout")
  /\ match
       fst (backend_outputs false remote_output None None None
              (fresh (remote_estimator failing_analyzer)))
     with
     | inr (all_metrics, _, _) => length all_metrics = 2
     | inl _ => False
     end.
Proof. split; reflexivity. Qed.

(** The timeout of the insight backend is the outcome of the analysis. *)
Lemma insight_outcome_witness :
  analyze_generation (vllm_output_of []) None None None (Some "why"%string)
    (fresh (local_estimator 5 failing_analyzer))
  = (inl (TimeoutError "timeout"),
     log (generate_overall_insight_call _ _ [] "why" "yes" None)
       (fresh (local_estimator 5 failing_analyzer))).
Proof.
  exact (insight_outcome_decides (vllm_output_of []) None None None
           (Some "why"%string) (fresh (local_estimator 5 failing_analyzer))
           (fresh (local_estimator 5 failing_analyzer)) [] "yes"%string None
           failing_analyzer eq_refl eq_refl).
Defined.

(** A plain output, no remote model id, no tokenizer: the configuration
    error. *)
Lemma dense_branch_witness :
  analyze_generation no_output None None (Some sample_processor) None
    (fresh (local_estimator 5 text_analyzer))
  = (inl (ValueError
            "Tokenizer and processor required for HuggingFace models"),
     fresh (local_estimator 5 text_analyzer)).
Proof.
  apply (dense_branch_needs_tokenizer_and_processor (AC := sample_class));
    try reflexivity.
  now left.
Defined.

(** C9, against the claim: with [top_k = 3] over a vocabulary of two
    tokens the selection raises; it does not return two candidates. *)
Lemma top_k_above_vocabulary_counterexample :
  fst (_process_logits two_logits (Some sample_tokenizer)
         (fresh (local_estimator 3 text_analyzer)))
  = inl (RuntimeError "selected index k out of range").
Proof. reflexivity. Qed.

(** With [top_k = 1] over a vocabulary of two tokens one candidate is
    returned. *)
Lemma dense_candidates_witness :
  exists token_info w',
    _process_logits two_logits (Some sample_tokenizer)
      (fresh (local_estimator 1 text_analyzer))
    = (inr token_info, w')
    /\ length token_info = 1.
Proof.
  destruct (proj1 (dense_candidates_top_k_within_vocabulary
                     [0%R; 1%R] [] sample_tokenizer
                     (fresh (local_estimator 1 text_analyzer))))
    as [token_info [w' [Hrun [_ [Hlen _]]]]].
  - simpl. lia.
  - exists token_info, w'. split; [exact Hrun | exact Hlen].
Defined.

(** A call on the one tensor of the sample store returns that tensor. *)
Lemma capture_witness :
  exists w',
    __call__ [[1%Z]] 0 sample_store = (inr 0, w')
    /\ captured (this w') = [1].
Proof.
  destruct (capture_is_identity_on_scores [[1%Z]] 0 sample_store)
    as [w' [Hrun [_ [Hcap _]]]].
  - simpl. lia.
  - exists w'. split; [exact Hrun | exact Hcap].
Defined.

(** Decides the comparisons of concrete reals a sort makes. *)
Ltac Rltb_decide :=
  repeat match goal with
         | |- context [Rltb ?a ?b] =>
             first [ rewrite (proj2 (Rltb_true a b)) by lra
                   | rewrite (proj2 (Rltb_false a b)) by lra ]
         end.

(** The three-entry step, uncut: the greatest log-probability first, the
    two tied entries in the order of the mapping. *)
Example tied_step_candidates :
  map token (vllm_token_info 3 tied_step) = ["b"; "a"; "c"]%string
  /\ map token (vllm_token_info 2 tied_step) = ["b"; "a"]%string
  /\ map token (vllm_token_info (-1) tied_step) = ["b"; "a"]%string
  /\ vllm_token_info 0 tied_step = [].
Proof.
  unfold vllm_token_info, tied_step, sort_desc, slice_to.
  cbn [map fold_right insert_desc logprob decoded_token fst snd].
  Rltb_decide.
  cbn [insert_desc fst snd]. Rltb_decide.
  cbn [insert_desc fst snd]. Rltb_decide.
  repeat split.
Qed.

Example slice_to_examples :
  slice_to [1; 2; 3] 2 = [1; 2]
  /\ slice_to [1; 2; 3] 5 = [1; 2; 3]
  /\ slice_to [1; 2; 3] (-1) = [1; 2]
  /\ slice_to [1; 2; 3] (-7) = [].
Proof. repeat split. Qed.

Example strip_truthy_examples :
  strip_truthy " wing" = true /\ strip_truthy "  " = false
  /\ strip_truthy "" = false.
Proof. repeat split. Qed.

(** An empty model id is no model id: the caller's [top_k] stays. *)
Example empty_model_id_keeps_top_k :
  top_k (UncertaintyEstimator_init 100 (Some text_analyzer) None
           (Some ""%string))
  = 100%Z.
Proof. reflexivity. Qed.

(** An estimator built with a remote model id and no analyzer computes the
    records of the response and then fails on the insight call. *)
Example remote_without_analyzer :
  fst (analyze_generation (AC := sample_class) remote_output None None None
         None
         (fresh (UncertaintyEstimator_init 100 None (Some "key"%string)
                   (Some "meta-llama/Llama-3-8b-chat-hf"%string))))
  = inl (AttributeError
           "'NoneType' object has no attribute 'generate_overall_insight'").
Proof. reflexivity. Qed.

(** ** The further properties on the sample inputs *)

Lemma no_analyzer_witness :
  exists e,
    fst (analyze_generation (AC := sample_class) remote_output None None None
           None (fresh bare_estimator))
    = inl e.
Proof.
  apply (no_analyzer_no_result (AC := sample_class)). reflexivity.
Defined.

Lemma estimator_unchanged_witness :
  self (snd (analyze_generation remote_output None None None None
               (fresh (remote_estimator text_analyzer))))
  = remote_estimator text_analyzer.
Proof.
  apply (estimator_unchanged_by_analysis (AC := sample_class) remote_output
           None None None None (fresh (remote_estimator text_analyzer))).
  left. reflexivity.
Defined.

Lemma vision_config_witness :
  analyzer
    (self (snd (analyze_generation vlm_output (Some sample_model)
                  (Some sample_tokenizer) (Some sample_processor) None
                  (fresh (local_estimator 100 uninitialised_vlm_analyzer)))))
  = Some {| sample_is_vlm := true; sample_patch_size := Some 14%Z;
            sample_reply := inr None |}.
Proof.
  pose proof (vision_config_initialised_once (AC := sample_class) vlm_output
                (Some sample_model) (Some sample_tokenizer)
                (Some sample_processor) None
                (fresh (local_estimator 100 uninitialised_vlm_analyzer))
                uninitialised_vlm_analyzer eq_refl eq_refl eq_refl) as H.
  cbv zeta iota in H. destruct H as [H _]. rewrite H. reflexivity.
Defined.

Lemma tokenizer_ignored_witness :
  analyze_generation remote_output (Some sample_model)
    (Some sample_tokenizer) (Some sample_processor) None
    (fresh (remote_estimator text_analyzer))
  = analyze_generation remote_output None None None None
      (fresh (remote_estimator text_analyzer)).
Proof.
  apply (batched_and_remote_ignore_tokenizer (AC := sample_class)
           remote_output (Some sample_model) (Some sample_tokenizer)
           (Some sample_processor) None
           (fresh (remote_estimator text_analyzer))).
  - reflexivity.
  - right. reflexivity.
Defined.


Lemma most_probable_witness :
  exists token_info w',
    _process_logits [[0%R; 1%R]] (Some sample_tokenizer)
      (fresh (local_estimator 1 text_analyzer))
    = (inr token_info, w')
    /\ NoDup (map token_id token_info).
Proof.
  destruct (dense_candidates_are_the_most_probable [0%R; 1%R] []
              sample_tokenizer (fresh (local_estimator 1 text_analyzer)))
    as [token_info [w' [Hrun [Hnodup _]]]].
  - simpl. lia.
  - now exists token_info, w'.
Defined.



Lemma short_response_witness :
  analyze_generation short_output None None None None
    (fresh (remote_estimator text_analyzer))
  = (inl (IndexError "index out of range"),
     fresh (remote_estimator text_analyzer)).
Proof.
  apply (remote_arrays_must_cover_tokens (AC := sample_class) short_output
           short_response); try reflexivity.
  left. simpl. lia.
Defined.



Lemma first_output_witness :
  analyze_generation
    ({| attentions := None; sequences := None; scores := None;
        outputs := Some []; items := None |} : SampleOutput)
    None None None None (fresh (local_estimator 5 text_analyzer))
  = (inl (IndexError "index out of range"),
     fresh (local_estimator 5 text_analyzer)).
Proof.
  exact (proj2 (only_first_output_is_analysed (AC := sample_class)
                  None None None None
                  {| text := "yes"; logprobs := None |} []
                  None None None None
                  (fresh (local_estimator 5 text_analyzer)) eq_refl)).
Defined.

Lemma missing_logprobs_witness :
  fst (analyze_generation (vllm_output_of []) None None None None
         (fresh (local_estimator 5 text_analyzer)))
  = inr {| token_metrics := []; overall_insight := Some "steady"%string |}.
Proof.
  rewrite (missing_logprobs_give_no_metrics (AC := sample_class)
             (vllm_output_of []) {| text := "yes"; logprobs := Some [] |} []
             None None None None (fresh (local_estimator 5 text_analyzer))
             text_analyzer eq_refl eq_refl (or_intror eq_refl) eq_refl).
  reflexivity.
Defined.

Lemma batched_records_witness :
  exists w1 ms,
    backend_outputs false (vllm_output_of [[]; one_entry_step]) None None
      None (fresh (local_estimator 5 text_analyzer))
    = (inr (ms, "yes"%string, None), w1)
    /\ length ms = 1
    /\ self w1 = local_estimator 5 text_analyzer.
Proof.
  destruct (batched_branch_records (AC := sample_class)
              (vllm_output_of [[]; one_entry_step])
              {| text := "yes"; logprobs := Some [[]; one_entry_step] |} []
              [[]; one_entry_step] None None None None
              (fresh (local_estimator 5 text_analyzer)) text_analyzer
              eq_refl eq_refl eq_refl eq_refl)
    as [w1 [Hrun [Hself _]]].
  exists w1. eexists. split; [exact Hrun |]. split; [reflexivity | exact Hself].
Defined.

Lemma dense_records_witness :
  exists ms w1,
    backend_outputs false dense_output None (Some sample_tokenizer)
      (Some one_step_processor) (fresh (local_estimator 1 text_analyzer))
    = (inr (ms, "wing"%string, None), w1)
    /\ length ms = 1.
Proof.
  destruct (huggingface_one_record_per_captured_tensor (AC := sample_class)
              dense_output None sample_tokenizer one_step_processor None
              (fresh (local_estimator 1 text_analyzer)) text_analyzer
              [1%Z; 2%Z; 3%Z] [] eq_refl eq_refl eq_refl eq_refl eq_refl)
    as [ms [w1 [Hrun [_ [Hrecs _]]]]].
  - constructor; [| constructor].
    exists [0%R; 1%R], []. split; [reflexivity | simpl; lia].
  - exists ms, w1. split; [exact Hrun |].
    apply Forall2_length in Hrecs. now rewrite <- Hrecs.
Defined.

Lemma vision_language_witness :
  exists ms w1,
    backend_outputs true vlm_output None (Some sample_tokenizer)
      (Some sample_processor) (fresh (local_estimator 100 vlm_analyzer))
    = (inr (ms, "wing"%string,
            Some [("wing"%string, [(1/4)%R; (3/4)%R])]), w1)
    /\ self w1 = local_estimator 100 vlm_analyzer.
Proof.
  destruct (vision_language_branch_run (AC := sample_class) vlm_output None
              sample_tokenizer (Some sample_processor) None
              (fresh (local_estimator 100 vlm_analyzer)) vlm_analyzer 14%Z
              [[(1/4)%R; (3/4)%R]] [1%Z; 2%Z; 3%Z] []
              eq_refl eq_refl eq_refl eq_refl eq_refl (Forall_nil _))
    as [ms [w1 [Hrun [Hself _]]]].
  exists ms, w1. split; [exact Hrun | exact Hself].
Defined.

Lemma captured_isolated_witness :
  captured_logits (processor_of (snd (__call__ [[1%Z]] 0 sample_store)))
  = [two_logits].
Proof.
  destruct (captured_tensors_are_isolated [[1%Z]] 0 sample_store
              (Forall_nil _) (NoDup_nil _)) as [_ [_ [H _]]].
  exact H.
Defined.

Lemma remote_generation_witness :
  exists d ms,
    _generate_with_together sample_api "Say hi"
      {| max_new_tokens := None; kwargs_temperature := None |}
      (fresh (remote_estimator text_analyzer))
    = (inr d, fresh (remote_estimator text_analyzer))
    /\ dict_text d = "Hi there"%string
    /\ length ms = 2
    /\ fst (analyze_generation (dict_output d) None None None None
              (fresh (remote_estimator text_analyzer)))
       = inr {| token_metrics := ms;
                overall_insight := Some "steady"%string |}.
Proof.
  destruct (remote_generation_then_analysis (AC := sample_class) sample_api
              "Say hi" {| max_new_tokens := None; kwargs_temperature := None |}
              (fresh (remote_estimator text_analyzer))
              {| api_key := "key" |} _ _ [] _
              eq_refl eq_refl eq_refl eq_refl eq_refl eq_refl eq_refl)
    as [d [ms [Hrun [Htext [Hlen Hana]]]]].
  exists d, ms. split; [exact Hrun |]. split; [exact Htext |].
  split; [exact Hlen |].
  apply (Hana text_analyzer); reflexivity.
Defined.

Lemma generation_failure_witness :
  _generate_with_together sample_api "Say hi"
    {| max_new_tokens := None; kwargs_temperature := None |}
    (fresh (UncertaintyEstimator_init 100 (Some text_analyzer) None
              (Some "meta-llama/Llama-3-8b-chat-hf"%string)))
  = (inl (AttributeError "'NoneType' object has no attribute 'chat'"),
     fresh (UncertaintyEstimator_init 100 (Some text_analyzer) None
              (Some "meta-llama/Llama-3-8b-chat-hf"%string))).
Proof.
  apply (proj1 (remote_generation_failures sample_api "Say hi"
                  {| max_new_tokens := None; kwargs_temperature := None |}
                  (fresh (remote_estimator text_analyzer)))).
  reflexivity.
Defined.

Lemma extract_answer_witness :
  extract_answer "so the answer is \boxed{42} as shown" = "42"%string.
Proof.
  apply (extract_answer_round_trip "so the answer is \" "42" " as shown");
    reflexivity.
Defined.


Lemma unparseable_witness :
  exists acc,
    compute_math_accuracy sample_float_of_string Z.eqb
      ["\frac{1}{2}"]%string ["\frac{1}{2}"]%string
    = inr acc
    /\ acc = 0%R.
Proof.
  apply (unparseable_predictions_score_nothing Z sample_float_of_string Z.eqb);
    [reflexivity |].
  constructor; [| constructor].
  now exists "could not convert string to float"%string.
Defined.

(** What [extract_answer] does with nested braces, with several boxed
    answers and without any. *)
Example extract_answer_examples :
  extract_answer "\boxed{\frac{1}{2}}" = "\frac{1"%string
  /\ extract_answer "\boxed{1} or \boxed{2}" = "2"%string
  /\ extract_answer "no answer" = ""%string
  /\ extract_answer "\boxed{unclosed" = ""%string.
Proof. repeat split. Qed.
